(** * The [similarity] criterion of fairseq/criterions/similarity.py

    A shallow embedding of [SimilarityCriterion.forward],
    [SimilarityCriterion.reduce_metrics] and
    [SimilarityCriterion.logging_outputs_can_be_summed].

    The numerical libraries the criterion delegates to (the model, the
    torch loss and similarity kernels, scikit-learn's ROC-AUC) are taken as
    parameters; the Python the file itself contains (dictionary handling,
    the assertion, the tensor comparisons with their broadcasting, [sum],
    true division, [itertools.chain], [set]) is modelled concretely. *)

From stdpp Require Import gmap strings list.
From Stdlib Require Import ZArith QArith Lia.

Local Open Scope Z_scope.

(** ** Exceptions and results *)

(** The exceptions a run can end with.  [Callee e] is an exception [e]
    raised inside code the criterion calls (the model, a library kernel);
    the other constructors are raised by the statements of the file. *)
Inductive exn (E : Type) : Type :=
| AssertionError (msg : string)
| KeyError (key : string)
| TypeError
| ZeroDivisionError
| RuntimeError
| Callee (e : E).
Arguments AssertionError {E} msg.
Arguments KeyError {E} key.
Arguments TypeError {E}.
Arguments ZeroDivisionError {E}.
Arguments RuntimeError {E}.
Arguments Callee {E} e.

Inductive result (E A : Type) : Type :=
| Ok (a : A)
| Err (e : exn E).
Arguments Ok {E A} a.
Arguments Err {E A} e.

Global Instance result_ret {E} : MRet (result E) := λ A a, Ok a.
Global Instance result_bind {E} : MBind (result E) := λ A B f r,
  match r with
  | Ok a => f a
  | Err e => Err e
  end.

(** A callee returns [inr v] or raises [inl e]. *)
Definition callee {E A} (r : E + A) : result E A :=
  match r with
  | inr a => Ok a
  | inl e => Err (Callee e)
  end.

(** [d[key]] on a dictionary entry that may be absent. *)
Definition getitem {E A} (key : string) (entry : option A) : result E A :=
  match entry with
  | Some a => Ok a
  | None => Err (KeyError key)
  end.

(** [assert cond, msg] *)
Definition assert_ {E} (cond : bool) (msg : string) : result E unit :=
  if cond then Ok tt else Err (AssertionError msg).

(** ** Scalars *)

(** The element type of tensors and of Python floats: the operations the
    file uses, total as IEEE arithmetic is ([Fdiv x 0] is an infinity or a
    NaN, not an exception). *)
Class Scalar (F : Type) := {
  Fof_Z : Z → F;
  Fadd : F → F → F;
  Fdiv : F → F → F;
  Fgt : F → F → bool;
  Feq : F → F → bool;
  Fln2 : F;
  Fln2_nonzero : Feq Fln2 (Fof_Z 0) = false;
}.

(** ** Python values stored in a logging dictionary *)

Inductive pynum (F : Type) : Type :=
| NInt (z : Z)
| NFloat (x : F)
| NTensor (x : F).
Arguments NInt {F} z.
Arguments NFloat {F} x.
Arguments NTensor {F} x.

Inductive pyval (F : Type) : Type :=
| VNum (n : pynum F)
| VList (xs : list F).
Arguments VNum {F} n.
Arguments VList {F} xs.

(** What the metrics aggregator and the AUC library observe. *)
Inductive event (F : Type) : Type :=
| LogScalar (key : string) (value weight : pynum F) (round : Z)
| RocAucCall (y_true y_score : list F).
Arguments LogScalar {F} key value weight round.
Arguments RocAucCall {F} y_true y_score.

(** Computations of [reduce_metrics]: the events emitted so far, and the
    value or the exception that ended the run.  What was logged before an
    exception stays logged. *)
Definition Log (F E A : Type) : Type := list (event F) * result E A.

Global Instance Log_ret {F E} : MRet (Log F E) := λ A a, ([], Ok a).
Global Instance Log_bind {F E} : MBind (Log F E) := λ A B f m,
  match m with
  | (t1, Ok a) => let '(t2, r) := f a in (t1 ++ t2, r)
  | (t1, Err e) => (t1, Err e)
  end.

Definition lift {F E A} (r : result E A) : Log F E A := ([], r).
Definition emit {F E} (ev : event F) : Log F E unit := ([ev], Ok tt).

Inductive Reduction := ReductionMean | ReductionSum.

Section Numeric.
Context {F : Type} `{Scalar F} {E : Type}.

Definition num_val (n : pynum F) : F :=
  match n with
  | NInt z => Fof_Z z
  | NFloat x => x
  | NTensor x => x
  end.

Definition is_tensor (n : pynum F) : bool :=
  match n with NTensor _ => true | _ => false end.

(** [a + b] on numbers: int + int is an int, a tensor operand gives a
    tensor, otherwise a float. *)
Definition num_add (a b : pynum F) : pynum F :=
  match a, b with
  | NInt x, NInt y => NInt (x + y)
  | _, _ =>
      if is_tensor a || is_tensor b then NTensor (Fadd (num_val a) (num_val b))
      else NFloat (Fadd (num_val a) (num_val b))
  end.

Definition py_add (a : pynum F) (b : pyval F) : result E (pynum F) :=
  match b with
  | VNum n => Ok (num_add a n)
  | VList _ => Err TypeError
  end.

Definition num_is_zero (n : pynum F) : bool :=
  match n with
  | NInt z => bool_decide (z = 0)
  | NFloat x | NTensor x => Feq x (Fof_Z 0)
  end.

(** [a / b]: Python numbers raise on a zero divisor, tensor division
    follows IEEE and does not. *)
Definition py_truediv (a b : pynum F) : result E (pynum F) :=
  if is_tensor a || is_tensor b then Ok (NTensor (Fdiv (num_val a) (num_val b)))
  else if num_is_zero b then Err ZeroDivisionError
  else Ok (NFloat (Fdiv (num_val a) (num_val b))).

(** The truth value of [a != b] (of its only element, when a tensor is
    compared). *)
Definition py_ne (a b : pynum F) : bool :=
  match a, b with
  | NInt x, NInt y => negb (bool_decide (x = y))
  | _, _ => negb (Feq (num_val a) (num_val b))
  end.

(** [sum(...)]: a left fold of [+] from the int [0]. *)
Fixpoint py_sum_from (acc : pynum F) (vs : list (pyval F))
  : result E (pynum F) :=
  match vs with
  | [] => Ok acc
  | v :: vs' => acc' ← py_add acc v; py_sum_from acc' vs'
  end.

Definition py_sum (vs : list (pyval F)) : result E (pynum F) :=
  py_sum_from (NInt 0) vs.

(** [list(itertools.chain.from_iterable(...))]: only lists are iterable
    among the values a logging dictionary holds here. *)
Fixpoint chain_from_iterable (vs : list (pyval F)) : result E (list F) :=
  match vs with
  | [] => Ok []
  | VList xs :: vs' => rest ← chain_from_iterable vs'; Ok (xs ++ rest)
  | VNum _ :: _ => Err TypeError
  end.

(** [set(xs)]: an element is inserted unless it is [==] to one already
    in the set. *)
Definition set_add (s : list F) (x : F) : list F :=
  if existsb (Feq x) s then s else s ++ [x].

Definition py_set (xs : list F) : list F := foldl set_add [] xs.

(** ** 1-D tensor operations of lines 75-81 *)

(** [t > c] for a tensor and a Python float. *)
Definition tensor_gt (t : list F) (c : F) : list bool :=
  map (λ x, Fgt x c) t.

(** Element-wise binary operation with broadcasting of 1-D tensors. *)
Definition broadcast2 {A} (f : A → A → A) (xs ys : list A)
  : result E (list A) :=
  if decide (length xs = length ys) then Ok (zip_with f xs ys)
  else match xs, ys with
       | [x], _ => Ok (map (f x) ys)
       | _, [y] => Ok (map (λ x, f x y) xs)
       | _, _ => Err RuntimeError
       end.

Definition tensor_eq : list bool → list bool → result E (list bool) :=
  broadcast2 Bool.eqb.
Definition tensor_mul : list bool → list bool → result E (list bool) :=
  broadcast2 andb.

(** [t.sum().item()] of a boolean tensor. *)
Definition sum_item (t : list bool) : Z :=
  Z.of_nat (length (filter (λ b, b = true) t)).
End Numeric.

(** ** Tensors *)

(** A tensor of any rank, as nested rows; [view_flat] is [t.view(-1)], the
    elements in row-major order, and [numel] the number of elements. *)
#[warnings="-register-all"] Inductive Tensor (F : Type) : Type :=
| Elem (x : F)
| Stack (ts : list (Tensor F)).
Arguments Elem {F} x.
Arguments Stack {F} ts.

Fixpoint view_flat {F} (t : Tensor F) : list F :=
  match t with
  | Elem x => [x]
  | Stack ts => flat_map view_flat ts
  end.

Definition numel {F} (t : list F) : Z := Z.of_nat (length t).

(** The logits of a batch: one feature vector per example. *)
Definition Logits (F : Type) : Type := list (list F).

(** ** The libraries the criterion calls *)

(** [torch.nn.functional.cosine_embedding_loss] with a scalar reduction,
    [torch.cosine_similarity(_, _, dim=1)] and
    [sklearn.metrics.roc_auc_score(y_true, y_score)]. *)
Record Library (F E : Type) := {
  cosine_embedding_loss :
    Logits F → Logits F → list F → F → Reduction → E + F;
  cosine_similarity : Logits F → Logits F → E + list F;
  roc_auc_score : list F → list F → E + F;
}.
Arguments cosine_embedding_loss {F E} _ _ _ _ _ _.
Arguments cosine_similarity {F E} _ _ _.
Arguments roc_auc_score {F E} _ _ _.

(** A batch as the task hands it to the criterion; an absent key is
    [None]. *)
Record Sample (F NetInput : Type) := {
  net_input0 : option NetInput;
  net_input1 : option NetInput;
  ntokens0 : option Z;
  ntokens1 : option Z;
  target : option (Tensor F);
}.
Arguments net_input0 {F NetInput} _.
Arguments net_input1 {F NetInput} _.
Arguments ntokens0 {F NetInput} _.
Arguments ntokens1 {F NetInput} _.
Arguments target {F NetInput} _.

(** The model object.  [classification_heads] is [None] when the
    attribute does not exist, else the names of the registered heads.
    [call] is the call of the model on the unpacked net input with
    [classification_head_name=name], which returns the logits and an extra
    value, and [get_targets] the method of that name; both run in the
    model's state [St] (parameters, dropout generator) and may change
    it. *)
Record Model (F E NetInput Extra St : Type) := {
  classification_heads : option (gset string);
  call : NetInput → string → St → E + (Logits F * Extra * St);
  get_targets : Sample F NetInput → list (Logits F) → St → E + (Tensor F * St);
}.
Arguments classification_heads {F E NetInput Extra St} _.
Arguments call {F E NetInput Extra St} _ _ _ _.
Arguments get_targets {F E NetInput Extra St} _ _ _ _.

Record SimilarityCriterion := {
  classification_head_name : string;
}.

Abbreviation LoggingOutput F := (gmap string (pyval F)).

Section Criterion.
Context {F : Type} `{Scalar F} {E NetInput Extra St : Type}.
Context (torch : Library F E).

(** [configs.cosine_embedding_loss_margin], defined in the [command]
    package. *)
Variable cosine_embedding_loss_margin : F.

Implicit Types (model : Model F E NetInput Extra St).
Implicit Types (sample : Sample F NetInput).
Implicit Types (self : SimilarityCriterion).

(** The condition of the assertion of lines 41-44. *)
Definition has_head self model : bool :=
  match classification_heads model with
  | Some heads => bool_decide (classification_head_name self ∈ heads)
  | None => false
  end.

Definition head_message : string :=
  "model must provide sentence classification head for --criterion=similarity".

(** Lines 33-97.  Returns the loss, the sample size and the logging
    outputs, and the state the model is left in.  The argument [reduce]
    is not used: the loss is summed in either case. *)
Definition forward self model sample (reduce : bool) (st : St)
  : result E (F * Z * LoggingOutput F * St) :=
  _ ← assert_ (has_head self model) head_message;
  ni0 ← getitem "net_input0" (net_input0 sample);
  '(logits0, _, st) ←
    callee (call model ni0 (classification_head_name self) st);
  ni1 ← getitem "net_input1" (net_input1 sample);
  '(logits1, _, st) ←
    callee (call model ni1 (classification_head_name self) st);
  '(tgt, st) ← callee (get_targets model sample [logits0] st);
  let targets := view_flat tgt in
  let sample_size := numel targets in
  loss ← callee (cosine_embedding_loss torch logits0 logits1 targets
                   cosine_embedding_loss_margin ReductionSum);
  nt0 ← getitem "ntokens0" (ntokens0 sample);
  nt1 ← getitem "ntokens1" (ntokens1 sample);
  let logging_output : LoggingOutput F :=
    <["sample_size" := VNum (NInt sample_size)]>
    (<["nsentences" := VNum (NInt sample_size)]>
    (<["ntokens" := VNum (NInt (nt0 + nt1))]>
    (<["loss" := VNum (NTensor loss)]> ∅))) in
  preds ← callee (cosine_similarity torch logits0 logits1);
  let p := tensor_gt preds cosine_embedding_loss_margin in
  let t := tensor_gt targets cosine_embedding_loss_margin in
  agree ← tensor_eq p t;
  hit ← tensor_mul agree t;
  let logging_output :=
    <["ncorrect" := VNum (NInt (sum_item hit))]> logging_output in
  agree ← tensor_eq p t;
  let logging_output :=
    <["ncorrect_total" := VNum (NInt (sum_item agree))]> logging_output in
  let logging_output :=
    <["ncorrect_pred" := VNum (NInt (sum_item p))]> logging_output in
  let logging_output :=
    <["ncorrect_actual" := VNum (NInt (sum_item t))]> logging_output in
  let logging_output := <["preds" := VList preds]> logging_output in
  let logging_output := <["targets" := VList targets]> logging_output in
  Ok (loss, sample_size, logging_output, st).

(** [log.get(key, 0)] *)
Definition get_or_0 (log : LoggingOutput F) (key : string) : pyval F :=
  default (VNum (NInt 0)) (log !! key).

(** [sum(log.get(key, 0) for log in logging_outputs)] *)
Definition sum_key (key : string) (logging_outputs : list (LoggingOutput F))
  : result E (pynum F) :=
  py_sum (map (λ log, get_or_0 log key) logging_outputs).

(** [list(itertools.chain.from_iterable([log.get(key, 0) for log in
    logging_outputs]))] *)
Definition chain_key (key : string) (logging_outputs : list (LoggingOutput F))
  : result E (list F) :=
  chain_from_iterable (map (λ log, get_or_0 log key) logging_outputs).

Definition contains (log : LoggingOutput F) (key : string) : bool :=
  bool_decide (is_Some (log !! key)).

(** The condition of lines 111-114. *)
Definition has_accuracy_stats (logging_outputs : list (LoggingOutput F))
  : bool :=
  match logging_outputs with
  | [] => false
  | first :: _ =>
      contains first "ncorrect" && contains first "ncorrect_pred"
      && contains first "ncorrect_actual" && contains first "ncorrect_total"
      && contains first "preds" && contains first "targets"
  end.

(** [metrics.log_scalar(key, value, weight, round=round)] *)
Definition log_scalar (key : string) (value weight : pynum F) (round : Z)
  : Log F E unit :=
  emit (LogScalar key value weight round).

(** Lines 119-122. *)
Definition compute_auc (targets preds : list F) : Log F E F :=
  if bool_decide (length (py_set targets) ≠ 2%nat) then mret (Fof_Z 1)
  else
    _ ← emit (RocAucCall targets preds);
    lift (callee (roc_auc_score torch targets preds)).

(** Lines 100-138. *)
Definition reduce_metrics (logging_outputs : list (LoggingOutput F))
  : Log F E unit :=
  loss_sum ← lift (sum_key "loss" logging_outputs);
  ntokens ← lift (sum_key "ntokens" logging_outputs);
  nsentences ← lift (sum_key "nsentences" logging_outputs);
  sample_size ← lift (sum_key "sample_size" logging_outputs);
  q ← lift (py_truediv loss_sum sample_size);
  v ← lift (py_truediv q (NFloat Fln2));
  _ ← log_scalar "loss" v sample_size 3;
  _ ← (if py_ne sample_size ntokens then
         q ← lift (py_truediv loss_sum ntokens);
         v ← lift (py_truediv q (NFloat Fln2));
         log_scalar "nll_loss" v ntokens 3
       else mret tt);
  if has_accuracy_stats logging_outputs then
    preds ← lift (chain_key "preds" logging_outputs);
    targets ← lift (chain_key "targets" logging_outputs);
    auc ← compute_auc targets preds;
    log_scalar "AUC" (NFloat auc) nsentences 4
  else mret tt.

(** Lines 140-147. *)
Definition logging_outputs_can_be_summed : bool := false.
End Criterion.

(** ** A reference instance: exact arithmetic

    Extended rationals stand for floats in the examples: finite values in
    lowest terms (so that equal numbers are equal terms), the two
    infinities and NaN.  The kernels follow the formulas the libraries
    document; a square root that is not rational is rounded down. *)
Module Exact.

Inductive xq : Type :=
| Fin (q : Q)
| Inf (negative : bool)
| NaN.

Definition fin (q : Q) : xq := Fin (Qred q).
Definition of_Z (z : Z) : xq := Fin (inject_Z z).

Definition q_sign (q : Q) : comparison := (Qnum q ?= 0)%Z.

Definition add (a b : xq) : xq :=
  match a, b with
  | Fin x, Fin y => fin (x + y)
  | Inf s, Inf s' => if Bool.eqb s s' then Inf s else NaN
  | Inf s, Fin _ | Fin _, Inf s => Inf s
  | _, _ => NaN
  end.

Definition opp (a : xq) : xq :=
  match a with
  | Fin x => fin (- x)
  | Inf s => Inf (negb s)
  | NaN => NaN
  end.

Definition sub (a b : xq) : xq := add a (opp b).

Definition is_negative (a : xq) : option bool :=
  match a with
  | Fin x => match q_sign x with Eq => None | Lt => Some true | Gt => Some false end
  | Inf s => Some s
  | NaN => None
  end.

Definition mul (a b : xq) : xq :=
  match a, b with
  | Fin x, Fin y => fin (x * y)
  | NaN, _ | _, NaN => NaN
  | _, _ =>
      match is_negative a, is_negative b with
      | Some s, Some s' => Inf (xorb s s')
      | _, _ => NaN
      end
  end.

Definition div (a b : xq) : xq :=
  match a, b with
  | Fin x, Fin y =>
      match q_sign y with
      | Eq => match q_sign x with Eq => NaN | Lt => Inf true | Gt => Inf false end
      | _ => fin (x / y)
      end
  | Fin _, Inf _ => of_Z 0
  | Inf s, Fin y => match q_sign y with Lt => Inf (negb s) | _ => Inf s end
  | _, _ => NaN
  end.

Definition gt (a b : xq) : bool :=
  match a, b with
  | Fin x, Fin y => negb (Qle_bool x y)
  | Inf false, Fin _ | Fin _, Inf true | Inf false, Inf true => true
  | _, _ => false
  end.

Definition eq (a b : xq) : bool :=
  match a, b with
  | Fin x, Fin y => Qeq_bool x y
  | Inf s, Inf s' => Bool.eqb s s'
  | _, _ => false
  end.

Definition max (a b : xq) : xq :=
  match a, b with
  | NaN, _ | _, NaN => NaN
  | _, _ => if gt b a then b else a
  end.

Definition sqrt (a : xq) : xq :=
  match a with
  | Fin x =>
      match q_sign x with
      | Lt => NaN
      | _ => fin (Z.sqrt (Qnum x * Z.pos (Qden x)) # Qden x)
      end
  | Inf false => Inf false
  | _ => NaN
  end.

Definition ln2 : xq := Fin (6931471805599453 # 10000000000000000).

#[global] Instance xq_scalar : Scalar xq.
Proof.
  refine {| Fof_Z := of_Z; Fadd := add; Fdiv := div; Fgt := gt; Feq := eq;
            Fln2 := ln2 |}.
  reflexivity.
Defined.

Definition sum (xs : list xq) : xq := foldl add (of_Z 0) xs.
Definition dot (x y : list xq) : xq := sum (zip_with mul x y).
Definition norm (x : list xq) : xq := sqrt (dot x x).

(** The library's exceptions, by their class name. *)
Definition error : Type := string.

(** Pairs two batches of rows, expanding a batch of one row. *)
Definition pair_rows {A B} (xs : list A) (ys : list B)
  : error + list (A * B) :=
  if decide (length xs = length ys) then inr (zip xs ys)
  else match xs, ys with
       | [x], _ => inr (map (λ y, (x, y)) ys)
       | _, [y] => inr (map (λ x, (x, y)) xs)
       | _, _ => inl "RuntimeError"
       end.

Definition eps : xq := Fin (1 # 100000000).

(** x1.x2 / max(|x1| |x2|, eps) *)
Definition cos_row (rows : list xq * list xq) : xq :=
  div (dot rows.1 rows.2) (max (mul (norm rows.1) (norm rows.2)) eps).

Definition same_width (rows : list xq * list xq) : bool :=
  bool_decide (length rows.1 = length rows.2).

Definition cos_sim (x1 x2 : Logits xq) : error + list xq :=
  match pair_rows x1 x2 with
  | inr rows =>
      if forallb same_width rows then inr (map cos_row rows)
      else inl "RuntimeError"
  | inl e => inl e
  end.

(** 1 - cos for the label 1, max(0, cos - margin) for the label -1. *)
Definition loss_row (margin : xq) (cy : xq * xq) : xq :=
  if eq cy.2 (of_Z 1) then sub (of_Z 1) cy.1
  else if eq cy.2 (of_Z (-1)) then max (of_Z 0) (sub cy.1 margin)
  else of_Z 0.

Definition cos_loss (x1 x2 : Logits xq) (y : list xq) (margin : xq)
    (r : Reduction) : error + xq :=
  match cos_sim x1 x2 with
  | inr c =>
      match pair_rows c y with
      | inr cys =>
          let total := sum (map (loss_row margin) cys) in
          match r with
          | ReductionSum => inr total
          | ReductionMean => inr (div total (of_Z (Z.of_nat (length cys))))
          end
      | inl e => inl e
      end
  | inl e => inl e
  end.

Definition is_nan (a : xq) : bool := match a with NaN => true | _ => false end.

(** The score of one (positive, negative) pair of predictions. *)
Definition pair_score (sp sn : xq) : xq :=
  if gt sp sn then of_Z 1 else if eq sp sn then Fin (1 # 2) else of_Z 0.

(** The area under the ROC curve of a binary problem, as the fraction of
    (positive, negative) pairs ranked in the right order, ties counting
    for one half; the larger label is the positive class. *)
Definition roc_auc (y_true y_score : list xq) : error + xq :=
  if negb (bool_decide (length y_true = length y_score)) then inl "ValueError"
  else if existsb is_nan y_true || existsb is_nan y_score then inl "ValueError"
  else match py_set y_true with
       | [a; b] =>
           let hi := max a b in
           let ys := zip y_true y_score in
           let pos := map snd (filter (λ ys, eq ys.1 hi = true) ys) in
           let neg := map snd (filter (λ ys, eq ys.1 hi = false) ys) in
           inr (div (sum (flat_map (λ sp, map (pair_score sp) neg) pos))
                    (of_Z (Z.of_nat (length pos * length neg))))
       | _ => inl "ValueError"
       end.

Definition torch : Library xq error := {|
  cosine_embedding_loss := cos_loss;
  cosine_similarity := cos_sim;
  roc_auc_score := roc_auc;
|}.

(** A model for the examples: the net input is the batch of feature
    vectors itself and the head returns it unchanged; the state counts the
    calls; [get_targets] is the base class's [sample['target']]. *)
Definition encoder (heads : option (gset string))
  : Model xq error (Logits xq) unit nat := {|
  classification_heads := heads;
  call := λ ni _ st, inr (ni, tt, S st);
  get_targets := λ sample _ st,
    match target sample with
    | Some t => inr (t, st)
    | None => inl "KeyError"
    end;
|}.

Definition vec (zs : list Z) : list xq := map of_Z zs.

Definition batch (x0 x1 : list (list Z)) (y : list Z) (n0 n1 : Z)
  : Sample xq (Logits xq) := {|
  net_input0 := Some (map vec x0);
  net_input1 := Some (map vec x1);
  ntokens0 := Some n0;
  ntokens1 := Some n1;
  target := Some (Stack (map (λ z, Elem (of_Z z)) y));
|}.

Definition similarity : SimilarityCriterion :=
  {| classification_head_name := "similarity" |}.

Definition margin : xq := Fin (1 # 2).

End Exact.

(** * Vocabulary of the properties *)

(** What [reduce_metrics] reads from one worker's dictionary. *)
Record WorkerStats (F : Type) := {
  ws_loss : F;
  ws_ntokens : Z;
  ws_nsentences : Z;
  ws_sample_size : Z;
  ws_preds : list F;
  ws_targets : list F;
}.
Arguments ws_loss {F} _.
Arguments ws_ntokens {F} _.
Arguments ws_nsentences {F} _.
Arguments ws_sample_size {F} _.
Arguments ws_preds {F} _.
Arguments ws_targets {F} _.

Definition sum_Z (zs : list Z) : Z := foldr Z.add 0 zs.

(** Broadcasting of two 1-D tensors of [n] and [m] elements: whether the
    shapes are compatible, and the number of elements of the result. *)
Definition compatible (n m : nat) : bool :=
  bool_decide (n = m) || bool_decide (n = 1%nat) || bool_decide (m = 1%nat).

Definition broadcast_length (n m : nat) : nat :=
  if decide (n = 1%nat) then m else n.

Section Vocabulary.
Context {F : Type} `{Scalar F} {E NetInput Extra St : Type}.
Context (torch : Library F E) (margin : F).

Implicit Types (model : Model F E NetInput Extra St).
Implicit Types (sample : Sample F NetInput).
Implicit Types (self : SimilarityCriterion).
Implicit Types (log : LoggingOutput F).
Implicit Types (logs : list (LoggingOutput F)).

(** The dictionary of lines 67-84, by its ten entries. *)
Definition logging_output_of (loss : F) (ntokens sample_size : Z)
    (ncorrect ncorrect_total ncorrect_pred ncorrect_actual : Z)
    (preds targets : list F) : LoggingOutput F :=
  <["targets" := VList targets]>
  (<["preds" := VList preds]>
  (<["ncorrect_actual" := VNum (NInt ncorrect_actual)]>
  (<["ncorrect_pred" := VNum (NInt ncorrect_pred)]>
  (<["ncorrect_total" := VNum (NInt ncorrect_total)]>
  (<["ncorrect" := VNum (NInt ncorrect)]>
  (<["sample_size" := VNum (NInt sample_size)]>
  (<["nsentences" := VNum (NInt sample_size)]>
  (<["ntokens" := VNum (NInt ntokens)]>
  (<["loss" := VNum (NTensor loss)]> ∅))))))))).

(** A run of [forward] that returns: every statement, with the value it
    produced. *)
Inductive forward_run self model sample (st : St)
  : F → Z → LoggingOutput F → St → Prop :=
| ForwardRun ni0 ni1 logits0 x0 st1 logits1 x1 st2 tgt st3 loss nt0 nt1
    preds agree hit :
    has_head self model = true →
    net_input0 sample = Some ni0 →
    call model ni0 (classification_head_name self) st = inr (logits0, x0, st1) →
    net_input1 sample = Some ni1 →
    call model ni1 (classification_head_name self) st1 = inr (logits1, x1, st2) →
    get_targets model sample [logits0] st2 = inr (tgt, st3) →
    cosine_embedding_loss torch logits0 logits1 (view_flat tgt) margin
      ReductionSum = inr loss →
    ntokens0 sample = Some nt0 →
    ntokens1 sample = Some nt1 →
    cosine_similarity torch logits0 logits1 = inr preds →
    tensor_eq (E:=E) (tensor_gt preds margin) (tensor_gt (view_flat tgt) margin)
      = Ok agree →
    tensor_mul (E:=E) agree (tensor_gt (view_flat tgt) margin) = Ok hit →
    forward_run self model sample st
      loss (numel (view_flat tgt))
      (logging_output_of loss (nt0 + nt1) (numel (view_flat tgt))
         (sum_item hit) (sum_item agree)
         (sum_item (tensor_gt preds margin))
         (sum_item (tensor_gt (view_flat tgt) margin))
         preds (view_flat tgt))
      st3.

(** A dictionary that some successful call of [forward] returned. *)
Definition produced_by_forward log : Prop :=
  ∃ self model sample reduce (st : St) loss ss st',
    forward torch margin self model sample reduce st = Ok (loss, ss, log, st').

(** An exception that is not the criterion's own assertion. *)
Definition downstream (e : exn E) : Prop :=
  (∃ key, e = KeyError key) ∨ e = RuntimeError ∨ (∃ e', e = Callee e').

(** Lines 119-122 followed by the logging of line 138. *)
Definition log_auc (targets preds : list F) (nsentences : pynum F)
  : Log F E unit :=
  auc ← compute_auc torch targets preds;
  log_scalar "AUC" (NFloat auc) nsentences 4.

(** The events of lines 107-109. *)
Definition is_loss_event (ev : event F) : Prop :=
  ∃ v w, ev = LogScalar "loss" v w 3 ∨ ev = LogScalar "nll_loss" v w 3.

(** How a run reaches line 138, if it does. *)
Inductive auc_outcome logs : Log F E unit → Prop :=
| NotReached e : auc_outcome logs ([], Err e)
| NoStats : has_accuracy_stats logs = false → auc_outcome logs ([], Ok tt)
| Pooled targets preds ns :
    has_accuracy_stats logs = true →
    chain_key (E:=E) "targets" logs = Ok targets →
    chain_key (E:=E) "preds" logs = Ok preds →
    sum_key (E:=E) "nsentences" logs = Ok ns →
    auc_outcome logs (log_auc targets preds ns).

(** The six entries, with the types [forward] gives them. *)
Definition has_stats log (s : WorkerStats F) : Prop :=
  log !! "loss" = Some (VNum (NTensor (ws_loss s)))
  ∧ log !! "ntokens" = Some (VNum (NInt (ws_ntokens s)))
  ∧ log !! "nsentences" = Some (VNum (NInt (ws_nsentences s)))
  ∧ log !! "sample_size" = Some (VNum (NInt (ws_sample_size s)))
  ∧ log !! "preds" = Some (VList (ws_preds s))
  ∧ log !! "targets" = Some (VList (ws_targets s)).

(** The float sum of the losses, in worker order; Python's [sum] starts
    from the int [0], which is what an empty list returns. *)
Definition loss_total (xs : list F) : pynum F :=
  match xs with
  | [] => NInt 0
  | _ :: _ => NTensor (foldl Fadd (Fof_Z 0) xs)
  end.

(** The events of lines 107-109 for a tensor loss sum [l], [s] samples
    and [n] tokens. *)
Definition loss_events (l : F) (s n : Z) : list (event F) :=
  LogScalar "loss" (NTensor (Fdiv (Fdiv l (Fof_Z s)) Fln2)) (NInt s) 3
  :: (if bool_decide (s = n) then []
      else [LogScalar "nll_loss" (NTensor (Fdiv (Fdiv l (Fof_Z n)) Fln2))
              (NInt n) 3]).

Section Totals.
Variable stats : list (WorkerStats F).

Definition total_loss : F := foldl Fadd (Fof_Z 0) (map ws_loss stats).
Definition total_ntokens : Z := sum_Z (map ws_ntokens stats).
Definition total_nsentences : Z := sum_Z (map ws_nsentences stats).
Definition total_sample_size : Z := sum_Z (map ws_sample_size stats).
Definition pooled_preds : list F := concat (map ws_preds stats).
Definition pooled_targets : list F := concat (map ws_targets stats).
End Totals.


(** The number of elements of [xs] that are [> c]. *)
Definition count_gt (xs : list F) (c : F) : Z :=
  Z.of_nat (length (filter (λ x, Fgt x c = true) xs)).

(** The keys under which a run logged, in order. *)
Definition metric_keys (trace : list (event F)) : list string :=
  omap (λ ev, match ev with
              | LogScalar key _ _ _ => Some key
              | RocAucCall _ _ => None
              end) trace.

(** The six keys that lines 111-114 look for in the first dictionary. *)
Definition stats_keys : list string :=
  ["ncorrect"; "ncorrect_pred"; "ncorrect_actual"; "ncorrect_total";
   "preds"; "targets"].


(** The exceptions of lines 102-117: a sum or a chain over entries of the
    wrong type, a division of Python numbers by zero. *)
Definition early_exception (e : exn E) : Prop :=
  e = TypeError ∨ e = ZeroDivisionError.

(** A Python int that torch takes as the scalar operand of a tensor
    operation: it fits a signed 64-bit integer (a larger one makes the
    operation raise [OverflowError]). *)
Definition fits_int64 (n : Z) : Prop := - 2 ^ 63 ≤ n < 2 ^ 63.

End Vocabulary.
Arguments produced_by_forward {F _ E} NetInput Extra St torch margin log.

(** * Concrete batches for the reference instance *)

(** A model with the head, and four batches: one with both labels, one
    with a single label, one whose logits have one row for three
    targets, and the empty batch; with each, the dictionary [forward]
    returns on it. *)
Definition example_model
  : Model Exact.xq Exact.error (Logits Exact.xq) unit nat :=
  Exact.encoder (Some {["similarity"]}).

Definition two_class_batch : Sample Exact.xq (Logits Exact.xq) :=
  Exact.batch [[1; 0]; [0; 1]; [3; 4]] [[1; 0]; [0; 1]; [4; -3]] [1; -1; 1] 5 7.

Definition two_class_log : LoggingOutput Exact.xq :=
  logging_output_of (Exact.Fin (3 # 2)) 12 3 1 1 2 2
    (Exact.vec [1; 1; 0]) (Exact.vec [1; -1; 1]).

Definition two_class_stats : WorkerStats Exact.xq := {|
  ws_loss := Exact.Fin (3 # 2);
  ws_ntokens := 12;
  ws_nsentences := 3;
  ws_sample_size := 3;
  ws_preds := Exact.vec [1; 1; 0];
  ws_targets := Exact.vec [1; -1; 1];
|}.

Definition one_class_batch : Sample Exact.xq (Logits Exact.xq) :=
  Exact.batch [[1; 0]; [1; 0]] [[1; 0]; [0; 1]] [1; 1] 4 6.

Definition one_class_log : LoggingOutput Exact.xq :=
  logging_output_of (Exact.Fin 1) 10 2 1 1 1 2
    (Exact.vec [1; 0]) (Exact.vec [1; 1]).

Definition broadcast_batch : Sample Exact.xq (Logits Exact.xq) :=
  Exact.batch [[1; 0]] [[1; 0]] [1; 1; 1] 5 7.

Definition broadcast_log : LoggingOutput Exact.xq :=
  logging_output_of (Exact.Fin 0) 12 3 3 3 1 3
    (Exact.vec [1]) (Exact.vec [1; 1; 1]).

Definition empty_batch : Sample Exact.xq (Logits Exact.xq) :=
  Exact.batch [] [] [] 0 0.

Definition empty_log : LoggingOutput Exact.xq :=
  logging_output_of (Exact.Fin 0) 0 0 0 0 0 0 [] [].

Definition exact_forward :=
  forward (NetInput:=Logits Exact.xq) (Extra:=unit) (St:=nat)
    Exact.torch Exact.margin Exact.similarity.

Definition exact_produced : LoggingOutput Exact.xq → Prop :=
  produced_by_forward (Logits Exact.xq) unit nat Exact.torch Exact.margin.

(** The two-class batch without its second net input; one row of
    logits against the two labels, with the dictionary [forward] returns
    on it; a dictionary without predictions and one without the count of
    correct predictions. *)
Definition no_net_input1_batch : Sample Exact.xq (Logits Exact.xq) := {|
  net_input0 := net_input0 two_class_batch;
  net_input1 := None;
  ntokens0 := ntokens0 two_class_batch;
  ntokens1 := ntokens1 two_class_batch;
  target := target two_class_batch;
|}.

Definition ragged_batch : Sample Exact.xq (Logits Exact.xq) :=
  Exact.batch [[1; 0]] [[1; 0]] [1; -1] 5 7.

Definition ragged_log : LoggingOutput Exact.xq :=
  logging_output_of (Exact.Fin (1 # 2)) 12 2 1 1 1 1
    (Exact.vec [1]) (Exact.vec [1; -1]).

Definition one_class_stats : WorkerStats Exact.xq := {|
  ws_loss := Exact.Fin 1;
  ws_ntokens := 10;
  ws_nsentences := 2;
  ws_sample_size := 2;
  ws_preds := Exact.vec [1; 0];
  ws_targets := Exact.vec [1; 1];
|}.

Definition no_preds_log : LoggingOutput Exact.xq :=
  delete "preds" two_class_log.

Definition no_ncorrect_log : LoggingOutput Exact.xq :=
  delete "ncorrect" two_class_log.

(** * Properties *)

(** ** Inversion of the two monads *)

Section Monads.
Context {F E : Type}.

Lemma bind_Ok_inv {A B} (r : result E A) (f : A → result E B) b :
  r ≫= f = Ok b → ∃ a, r = Ok a ∧ f a = Ok b.
Proof. destruct r as [a|e]; [eauto | discriminate]. Qed.

Lemma bind_Err_inv {A B} (r : result E A) (f : A → result E B) e :
  r ≫= f = Err e → r = Err e ∨ ∃ a, r = Ok a ∧ f a = Err e.
Proof. destruct r as [a|e']; [eauto | intros [= ->]; auto]. Qed.

Lemma callee_Ok_inv {A} (r : E + A) a : callee r = Ok a → r = inr a.
Proof. destruct r; [discriminate | by intros [= ->]]. Qed.

Lemma getitem_Ok_inv {A} key (entry : option A) a :
  getitem (E:=E) key entry = Ok a → entry = Some a.
Proof. destruct entry; [by intros [= ->] | discriminate]. Qed.

Lemma assert_Ok_inv cond msg u : assert_ (E:=E) cond msg = Ok u → cond = true.
Proof. by destruct cond. Qed.

Lemma Log_bind_lift_Ok {A B} (r : result E A) (k : A → Log F E B) a :
  r = Ok a → lift r ≫= k = k a.
Proof. intros ->. unfold lift, mbind, Log_bind. by destruct (k a). Qed.

Lemma Log_bind_lift_Err {A B} (r : result E A) (k : A → Log F E B) e :
  r = Err e → lift r ≫= k = ([], Err e).
Proof. by intros ->. Qed.

Lemma Log_bind_emit {B} (ev : event F) (k : unit → Log F E B) :
  emit ev ≫= k = (ev :: (k tt).1, (k tt).2).
Proof. unfold emit, mbind, Log_bind. by destruct (k tt). Qed.

Lemma Log_bind_ret {A B} (a : A) (k : A → Log F E B) : mret a ≫= k = k a.
Proof. unfold mret, Log_ret, mbind, Log_bind. by destruct (k a). Qed.

Lemma Log_bind_fst {A B} (m : Log F E A) (k : A → Log F E B) :
  (m ≫= k).1 = m.1 ++ match m.2 with Ok a => (k a).1 | Err _ => [] end.
Proof.
  destruct m as [t [a|e]]; unfold mbind, Log_bind; simpl.
  - by destruct (k a).
  - by rewrite app_nil_r.
Qed.

Lemma Log_bind_snd {A B} (m : Log F E A) (k : A → Log F E B) :
  (m ≫= k).2 = match m.2 with Ok a => (k a).2 | Err e => Err e end.
Proof.
  destruct m as [t [a|e]]; unfold mbind, Log_bind; simpl; [|done].
  by destruct (k a).
Qed.
End Monads.

(** ** Boolean tensors *)

Section Tensors.
Context {E : Type}.

Lemma broadcast2_same_length {A} (f : A → A → A) (xs ys : list A) :
  length xs = length ys → broadcast2 (E:=E) f xs ys = Ok (zip_with f xs ys).
Proof. intros Hlen. unfold broadcast2. by rewrite decide_True. Qed.

Lemma sum_item_nonneg (t : list bool) : 0 ≤ sum_item t.
Proof. unfold sum_item. lia. Qed.

Lemma sum_item_cons (b : bool) (t : list bool) :
  sum_item (b :: t) = (if b then 1 else 0) + sum_item t.
Proof.
  unfold sum_item. rewrite filter_cons.
  destruct b; [rewrite decide_True by done | rewrite decide_False by done];
    simpl; lia.
Qed.

Lemma sum_item_le_length (t : list bool) : sum_item t ≤ Z.of_nat (length t).
Proof.
  induction t as [|b t IH]; [done|].
  rewrite sum_item_cons. destruct b; simpl length; lia.
Qed.

(** The hits [(p == t) * t] are counted among the positives of either
    tensor when no broadcasting takes place. *)
Lemma sum_item_hits (p t : list bool) :
  length p = length t →
  sum_item (zip_with andb (zip_with Bool.eqb p t) t) ≤ sum_item p
  ∧ sum_item (zip_with andb (zip_with Bool.eqb p t) t) ≤ sum_item t.
Proof.
  revert t. induction p as [|a p IH]; intros [|b t] Hlen; try done.
  injection Hlen as Hlen. destruct (IH t Hlen) as [IHp IHt].
  cbn [zip_with]. rewrite !sum_item_cons.
  destruct a, b; simpl; lia.
Qed.

Lemma length_zip_with_same {A} (f : A → A → A) (xs ys : list A) :
  length xs = length ys → length (zip_with f xs ys) = length ys.
Proof. intros Hlen. rewrite length_zip_with. lia. Qed.
End Tensors.

(** ** Python sets *)

(** Where [==] is equality (no NaN among the elements), [set(xs)] holds
    each value of [xs] once: its length is the number of distinct
    values. *)
Section Sets.
Context {F : Type} `{Scalar F}.
Hypothesis Feq_eq : ∀ x y : F, Feq x y = true ↔ x = y.

Lemma existsb_Feq (x : F) (s : list F) : existsb (Feq x) s = true ↔ x ∈ s.
Proof.
  rewrite existsb_exists. split.
  - intros (y & Hin & Heq). apply Feq_eq in Heq as ->.
    by apply list_elem_of_In.
  - intros Hin. exists x. split; [by apply list_elem_of_In | by apply Feq_eq].
Qed.

Lemma set_add_spec (s : list F) (x : F) :
  NoDup s →
  NoDup (set_add s x) ∧ ∀ y, y ∈ set_add s x ↔ y ∈ s ∨ y = x.
Proof.
  intros Hs. unfold set_add.
  destruct (existsb (Feq x) s) eqn:Hex.
  - apply existsb_Feq in Hex. split; [done|].
    intros y. split; [auto | by intros [?| ->]].
  - assert (x ∉ s) as Hnot by (rewrite <- existsb_Feq; congruence).
    split.
    + apply NoDup_app. split; [done|]. split; [|apply NoDup_singleton].
      by intros y Hy ->%list_elem_of_singleton.
    + intros y. by rewrite elem_of_app, list_elem_of_singleton.
Qed.

Lemma foldl_set_add_spec (xs s : list F) :
  NoDup s →
  NoDup (foldl set_add s xs) ∧ ∀ y, y ∈ foldl set_add s xs ↔ y ∈ s ∨ y ∈ xs.
Proof.
  revert s. induction xs as [|x xs IH]; intros s Hs; cbn [foldl].
  - split; [done|]. intros y. rewrite elem_of_nil. tauto.
  - destruct (set_add_spec s x Hs) as [Hnd Hin].
    destruct (IH _ Hnd) as [Hnd' Hin']. split; [done|].
    intros y. rewrite Hin', Hin, elem_of_cons. tauto.
Qed.

Lemma py_set_distinct (xs : list F) :
  NoDup (py_set xs) ∧ ∀ y, y ∈ py_set xs ↔ y ∈ xs.
Proof.
  destruct (foldl_set_add_spec xs [] (NoDup_nil_2 (A:=F))) as [Hnd Hin].
  split; [done|]. intros y. rewrite Hin, elem_of_nil. tauto.
Qed.
End Sets.

(** ** The successful runs of [forward] *)

Section ForwardFacts.
Context {F : Type} `{Scalar F} {E NetInput Extra St : Type}.
Context (torch : Library F E) (margin : F).

Implicit Types (model : Model F E NetInput Extra St).
Implicit Types (sample : Sample F NetInput).
Implicit Types (self : SimilarityCriterion).
Implicit Types (log : LoggingOutput F).

Ltac bind_inv H :=
  let x := fresh "x" in
  let Hx := fresh "Hx" in
  apply bind_Ok_inv in H as (x & Hx & H);
  repeat match type of H with
         | context [match ?v with _ => _ end] => is_var v; destruct v
         end;
  cbv beta iota in H;
  first [ apply assert_Ok_inv in Hx
        | apply getitem_Ok_inv in Hx
        | apply callee_Ok_inv in Hx
        | idtac ].

Lemma forward_Ok_run self model sample reduce st loss ss log st' :
  forward torch margin self model sample reduce st = Ok (loss, ss, log, st') →
  forward_run torch margin self model sample st loss ss log st'.
Proof.
  unfold forward. intros Hf.
  do 13 bind_inv Hf.
  match goal with
  | H1 : tensor_eq ?p ?t = Ok ?a, H2 : tensor_eq ?p ?t = Ok ?b |- _ =>
      assert (b = a) as -> by congruence
  end.
  injection Hf as <- <- <- <-.
  by eapply ForwardRun.
Qed.

Lemma forward_run_Ok self model sample reduce st loss ss log st' :
  forward_run torch margin self model sample st loss ss log st' →
  forward torch margin self model sample reduce st = Ok (loss, ss, log, st').
Proof.
  intros [ni0 ni1 logits0 x0 st1 logits1 x1 st2 tgt st3 loss' nt0 nt1
            preds agree hit Hhead Hni0 Hc0 Hni1 Hc1 Htg Hloss Hnt0 Hnt1 Hp Hag Hhit].
  unfold forward.
  rewrite Hhead, Hni0. cbn [assert_ getitem mbind result_bind].
  rewrite Hc0. cbn [callee mbind result_bind]. rewrite Hni1.
  cbn [getitem mbind result_bind]. rewrite Hc1.
  cbn [callee mbind result_bind]. rewrite Htg.
  cbn [callee mbind result_bind]. rewrite Hloss.
  cbn [callee mbind result_bind]. rewrite Hnt0, Hnt1.
  cbn [getitem mbind result_bind]. rewrite Hp.
  cbn [callee mbind result_bind]. rewrite Hag.
  cbn [mbind result_bind]. rewrite Hhit.
  reflexivity.
Qed.

(** The entries of the dictionary. *)
Section Entries.
Variables (loss : F) (ntokens sample_size : Z).
Variables (ncorrect ncorrect_total ncorrect_pred ncorrect_actual : Z).
Variables (preds targets : list F).

Let d : LoggingOutput F :=
  logging_output_of loss ntokens sample_size ncorrect ncorrect_total
    ncorrect_pred ncorrect_actual preds targets.

Lemma lookup_loss : d !! "loss" = Some (VNum (NTensor loss)).
Proof. reflexivity. Qed.
Lemma lookup_nsentences : d !! "nsentences" = Some (VNum (NInt sample_size)).
Proof. reflexivity. Qed.
Lemma lookup_sample_size : d !! "sample_size" = Some (VNum (NInt sample_size)).
Proof. reflexivity. Qed.
Lemma lookup_ncorrect : d !! "ncorrect" = Some (VNum (NInt ncorrect)).
Proof. reflexivity. Qed.
Lemma lookup_ncorrect_total :
  d !! "ncorrect_total" = Some (VNum (NInt ncorrect_total)).
Proof. reflexivity. Qed.
Lemma lookup_ncorrect_pred :
  d !! "ncorrect_pred" = Some (VNum (NInt ncorrect_pred)).
Proof. reflexivity. Qed.
Lemma lookup_ncorrect_actual :
  d !! "ncorrect_actual" = Some (VNum (NInt ncorrect_actual)).
Proof. reflexivity. Qed.
Lemma lookup_preds : d !! "preds" = Some (VList preds).
Proof. reflexivity. Qed.
Lemma lookup_targets : d !! "targets" = Some (VList targets).
Proof. reflexivity. Qed.
End Entries.
End ForwardFacts.

(** ** The failures of [forward] *)

Section ForwardFailures.
Context {F : Type} `{Scalar F} {E NetInput Extra St : Type}.
Context (torch : Library F E) (margin : F).

Implicit Types (model : Model F E NetInput Extra St).
Implicit Types (sample : Sample F NetInput).
Implicit Types (self : SimilarityCriterion).

Lemma getitem_Err_inv {A} key (entry : option A) (e : exn E) :
  getitem key entry = Err e → e = KeyError key.
Proof. destruct entry; [discriminate | by intros [= <-]]. Qed.

Lemma callee_Err_inv {A} (r : E + A) (e : exn E) :
  callee r = Err e → ∃ e', e = Callee e'.
Proof. destruct r; [intros [= <-]; eauto | discriminate]. Qed.

Lemma broadcast2_Err_inv {A} (f : A → A → A) xs ys (e : exn E) :
  broadcast2 f xs ys = Err e → e = RuntimeError.
Proof.
  unfold broadcast2. destruct (decide _); [discriminate|].
  destruct xs as [|x [|x' xs]], ys as [|y [|y' ys]];
    first [discriminate | by intros [= <-]].
Qed.

Ltac err_step H :=
  let x := fresh "x" in
  apply bind_Err_inv in H as [H | (x & _ & H)];
  [ first [ apply getitem_Err_inv in H
          | apply callee_Err_inv in H
          | apply broadcast2_Err_inv in H ];
    unfold downstream; eauto
  | repeat match type of H with
           | context [match ?v with _ => _ end] => is_var v; destruct v
           end;
    cbv beta iota in H ].

(** The assertion is evaluated first: without the head nothing else
    runs, with it the assertion cannot be what fails. *)
Lemma forward_Err_cases self model sample reduce st (e : exn E) :
  forward torch margin self model sample reduce st = Err e →
  (has_head self model = false ∧ e = AssertionError head_message)
  ∨ (has_head self model = true ∧ downstream e).
Proof.
  unfold forward. intros Hf.
  destruct (has_head self model) eqn:Hhead;
    cbn [assert_ mbind result_bind] in Hf.
  - right. split; [done|].
    do 12 (err_step Hf). discriminate.
  - left. by injection Hf as <-.
Qed.

Lemma forward_without_head self model sample reduce st :
  has_head self model = false →
  forward torch margin self model sample reduce st
  = Err (AssertionError head_message).
Proof. intros Hhead. unfold forward. by rewrite Hhead. Qed.

Lemma has_head_false self model :
  has_head self model = false ↔
  classification_heads model = None
  ∨ ∃ heads, classification_heads model = Some heads
             ∧ classification_head_name self ∉ heads.
Proof.
  unfold has_head. destruct (classification_heads model) as [heads|].
  - rewrite bool_decide_eq_false. split.
    + intros Hnot. right. eauto.
    + intros [|(heads' & [= <-] & Hnot)]; done.
  - split; [auto | done].
Qed.
End ForwardFailures.

(** ** The runs of [reduce_metrics] *)

Section ReduceFacts.
Context {F : Type} `{Scalar F} {E : Type}.
Context (torch : Library F E).

Implicit Types (logs : list (LoggingOutput F)).

Lemma Log_bind_assoc {A B C} (m : Log F E A) (f : A → Log F E B)
    (g : B → Log F E C) :
  (m ≫= f) ≫= g = m ≫= (λ a, f a ≫= g).
Proof.
  destruct m as [t [a|e]]; unfold mbind, Log_bind; [|done].
  destruct (f a) as [t' [b|e]]; [|done].
  destruct (g b) as [t'' r]. by rewrite app_assoc.
Qed.

Lemma bind_log_scalar {B} key v w r (k : unit → Log F E B) :
  log_scalar key v w r ≫= k = (LogScalar key v w r :: (k tt).1, (k tt).2).
Proof. apply Log_bind_emit. Qed.

Lemma log_auc_default targets preds ns :
  length (py_set targets) ≠ 2%nat →
  log_auc torch targets preds ns = ([LogScalar "AUC" (NFloat (Fof_Z 1)) ns 4], Ok tt).
Proof.
  intros Hset. unfold log_auc, compute_auc.
  by rewrite bool_decide_eq_true_2.
Qed.

Lemma log_auc_roc targets preds ns :
  length (py_set targets) = 2%nat →
  log_auc torch targets preds ns =
    match roc_auc_score torch targets preds with
    | inr auc =>
        ([RocAucCall targets preds; LogScalar "AUC" (NFloat auc) ns 4], Ok tt)
    | inl e => ([RocAucCall targets preds], Err (Callee e))
    end.
Proof.
  intros Hset. unfold log_auc, compute_auc.
  rewrite bool_decide_eq_false_2 by (by intros []).
  by destruct (roc_auc_score torch targets preds).
Qed.

Ltac lift_case x Hx :=
  match goal with
  | |- context [lift ?r ≫= ?k] =>
      destruct r as [x|x] eqn:Hx;
      [ rewrite (Log_bind_lift_Ok _ k _ eq_refl); cbv beta
      | rewrite (Log_bind_lift_Err _ k _ eq_refl) ]
  end.

Lemma auc_statement_outcome logs ns :
  sum_key (E:=E) "nsentences" logs = Ok ns →
  auc_outcome torch logs
    (if has_accuracy_stats logs then
       preds ← lift (chain_key "preds" logs);
       targets ← lift (chain_key "targets" logs);
       auc ← compute_auc torch targets preds;
       log_scalar "AUC" (NFloat auc) ns 4
     else mret tt).
Proof.
  intros Hns. destruct (has_accuracy_stats logs) eqn:Hstats.
  - lift_case preds Hpreds; [|constructor].
    lift_case targets Htargets; [|constructor].
    by apply Pooled.
  - by apply NoStats.
Qed.

(** Every run: events of lines 107-109 first, then what line 138 logs. *)
Lemma reduce_metrics_shape logs :
  ∃ t0 tail,
    reduce_metrics torch logs = (t0 ++ tail.1, tail.2)
    ∧ Forall is_loss_event t0
    ∧ auc_outcome torch logs tail.
Proof.
  assert (∀ e : exn E, ∃ t0 tail,
    (([], Err e) : Log F E unit) = (t0 ++ tail.1, tail.2)
    ∧ Forall is_loss_event t0 ∧ auc_outcome torch logs tail) as Hfail.
  { intros e. exists [], ([], Err e).
    split; [done|]. split; constructor. }
  unfold reduce_metrics.
  lift_case loss_sum Hloss_sum; [|apply Hfail].
  lift_case ntokens Hntokens; [|apply Hfail].
  lift_case nsentences Hnsentences; [|apply Hfail].
  lift_case sample_size Hsample_size; [|apply Hfail].
  lift_case q Hq; [|apply Hfail].
  lift_case v Hv; [|apply Hfail].
  rewrite bind_log_scalar.
  assert (is_loss_event (LogScalar "loss" v sample_size 3)) as Hloss
    by (do 2 eexists; by left).
  pose proof (auc_statement_outcome logs nsentences Hnsentences) as Hauc.
  destruct (py_ne sample_size ntokens).
  - rewrite Log_bind_assoc. lift_case q' Hq'.
    { rewrite Log_bind_assoc. lift_case v' Hv'.
      - rewrite bind_log_scalar. cbv beta.
        match type of Hauc with
        | auc_outcome _ _ ?t =>
            exists [LogScalar "loss" v sample_size 3;
                    LogScalar "nll_loss" v' ntokens 3], t
        end.
        split; [reflexivity|]. split; [|exact Hauc].
        repeat constructor; [done|]. do 2 eexists; by right.
      - exists [LogScalar "loss" v sample_size 3], ([], Err v').
        split; [reflexivity|]. split; [by constructor | constructor]. }
    exists [LogScalar "loss" v sample_size 3], ([], Err q').
    split; [reflexivity|]. split; [by constructor | constructor].
  - rewrite Log_bind_ret.
    match type of Hauc with
    | auc_outcome _ _ ?t => exists [LogScalar "loss" v sample_size 3], t
    end.
    split; [reflexivity|]. split; [by constructor | exact Hauc].
Qed.
End ReduceFacts.

(** ** Aggregation over workers *)

Section Aggregation.
Context {F : Type} `{Scalar F} {E : Type}.
Context (torch : Library F E).

Implicit Types (logs : list (LoggingOutput F)).
Implicit Types (log : LoggingOutput F).
Implicit Types (stats : list (WorkerStats F)).

Lemma get_or_0_lookup log key (v : pyval F) :
  log !! key = Some v → get_or_0 log key = v.
Proof. unfold get_or_0. by intros ->. Qed.

Lemma py_sum_from_ints key (a : Z) logs (zs : list Z) :
  Forall2 (λ log z, log !! key = Some (VNum (NInt z))) logs zs →
  py_sum_from (E:=E) (NInt a) (map (λ log, get_or_0 log key) logs)
  = Ok (NInt (a + sum_Z zs)).
Proof.
  intros Hall. revert a.
  induction Hall as [|log z logs zs Hlog _ IH]; intros a.
  - cbn [map py_sum_from sum_Z foldr]. by rewrite Z.add_0_r.
  - cbn [map py_sum_from]. rewrite (get_or_0_lookup _ _ _ Hlog).
    cbn [py_add num_add mbind result_bind].
    rewrite IH. cbn [sum_Z foldr]. by rewrite Z.add_assoc.
Qed.

Lemma py_sum_from_tensors key (a : F) logs (xs : list F) :
  Forall2 (λ log x, log !! key = Some (VNum (NTensor x))) logs xs →
  py_sum_from (E:=E) (NTensor a) (map (λ log, get_or_0 log key) logs)
  = Ok (NTensor (foldl Fadd a xs)).
Proof.
  intros Hall. revert a.
  induction Hall as [|log x logs xs Hlog _ IH]; intros a; [done|].
  cbn [map py_sum_from]. rewrite (get_or_0_lookup _ _ _ Hlog).
  cbn [py_add num_add is_tensor orb num_val mbind result_bind].
  by rewrite IH.
Qed.

Lemma sum_key_ints key logs (zs : list Z) :
  Forall2 (λ log z, log !! key = Some (VNum (NInt z))) logs zs →
  sum_key (E:=E) key logs = Ok (NInt (sum_Z zs)).
Proof. intros Hall. exact (py_sum_from_ints key 0 logs zs Hall). Qed.

Lemma sum_key_tensors key logs (xs : list F) :
  Forall2 (λ log x, log !! key = Some (VNum (NTensor x))) logs xs →
  sum_key (E:=E) key logs = Ok (loss_total xs).
Proof.
  intros Hall. unfold sum_key, py_sum.
  destruct Hall as [|log x logs xs Hlog Hall]; [done|].
  cbn [map py_sum_from]. rewrite (get_or_0_lookup _ _ _ Hlog).
  cbn [py_add num_add is_tensor orb num_val mbind result_bind].
  by rewrite (py_sum_from_tensors key _ logs xs Hall).
Qed.

Lemma chain_key_lists key logs (ls : list (list F)) :
  Forall2 (λ log l, log !! key = Some (VList l)) logs ls →
  chain_key (E:=E) key logs = Ok (concat ls).
Proof.
  unfold chain_key.
  induction 1 as [|log l logs ls Hlog _ IH]; [done|].
  cbn [map chain_from_iterable]. rewrite (get_or_0_lookup _ _ _ Hlog).
  by rewrite IH.
Qed.

Lemma Forall2_has_stats_field {A} logs stats key
    (wrap : A → pyval F) (field : WorkerStats F → A) :
  (∀ log s, has_stats log s → log !! key = Some (wrap (field s))) →
  Forall2 has_stats logs stats →
  Forall2 (λ log a, log !! key = Some (wrap a)) logs (map field stats).
Proof.
  intros Hfield Hall.
  induction Hall as [|log s logs stats Hs _ IH]; constructor; auto.
Qed.

Lemma sums_of_stats logs stats :
  Forall2 has_stats logs stats →
  sum_key (E:=E) "loss" logs = Ok (loss_total (map ws_loss stats))
  ∧ sum_key (E:=E) "ntokens" logs = Ok (NInt (total_ntokens stats))
  ∧ sum_key (E:=E) "nsentences" logs = Ok (NInt (total_nsentences stats))
  ∧ sum_key (E:=E) "sample_size" logs = Ok (NInt (total_sample_size stats))
  ∧ chain_key (E:=E) "preds" logs = Ok (pooled_preds stats)
  ∧ chain_key (E:=E) "targets" logs = Ok (pooled_targets stats).
Proof.
  intros Hall. repeat split.
  - apply sum_key_tensors.
    apply (Forall2_has_stats_field _ _ "loss" (λ x, VNum (NTensor x)) ws_loss);
      [|done]. by intros log s (?&?&?&?&?&?).
  - apply sum_key_ints.
    apply (Forall2_has_stats_field _ _ "ntokens" (λ z, VNum (NInt z))
             ws_ntokens); [|done]. by intros log s (?&?&?&?&?&?).
  - apply sum_key_ints.
    apply (Forall2_has_stats_field _ _ "nsentences" (λ z, VNum (NInt z))
             ws_nsentences); [|done]. by intros log s (?&?&?&?&?&?).
  - apply sum_key_ints.
    apply (Forall2_has_stats_field _ _ "sample_size" (λ z, VNum (NInt z))
             ws_sample_size); [|done]. by intros log s (?&?&?&?&?&?).
  - apply chain_key_lists.
    apply (Forall2_has_stats_field _ _ "preds" VList ws_preds); [|done].
    by intros log s (?&?&?&?&?&?).
  - apply chain_key_lists.
    apply (Forall2_has_stats_field _ _ "targets" VList ws_targets); [|done].
    by intros log s (?&?&?&?&?&?).
Qed.

(** The division by [math.log(2)] cannot raise. *)
Lemma py_truediv_ln2 (a : pynum F) :
  ∃ v, py_truediv (E:=E) a (NFloat Fln2) = Ok v.
Proof.
  unfold py_truediv. destruct (is_tensor a || is_tensor (NFloat Fln2)); [eauto|].
  cbn [num_is_zero]. rewrite Fln2_nonzero. eauto.
Qed.

Lemma py_truediv_tensor (x : F) (b : pynum F) :
  py_truediv (E:=E) (NTensor x) b = Ok (NTensor (Fdiv x (num_val b))).
Proof. reflexivity. Qed.

(** What a run on the dictionaries of at least one worker logs. *)
Lemma reduce_metrics_of_stats logs stats :
  Forall2 has_stats logs stats →
  stats ≠ [] →
  let tail : Log F E unit :=
    if has_accuracy_stats logs then
      log_auc torch (pooled_targets stats) (pooled_preds stats)
        (NInt (total_nsentences stats))
    else ([], Ok tt) in
  reduce_metrics torch logs =
    (loss_events (total_loss stats) (total_sample_size stats)
       (total_ntokens stats) ++ tail.1, tail.2).
Proof.
  intros Hall Hne tail.
  destruct (sums_of_stats logs stats Hall)
    as (Hloss & Hntokens & Hnsentences & Hsample_size & Hpreds & Htargets).
  assert (loss_total (map ws_loss stats) = NTensor (total_loss stats)) as Htotal.
  { destruct stats; [done|reflexivity]. }
  rewrite Htotal in Hloss.
  unfold reduce_metrics.
  rewrite (Log_bind_lift_Ok _ _ _ Hloss). cbv beta.
  rewrite (Log_bind_lift_Ok _ _ _ Hntokens). cbv beta.
  rewrite (Log_bind_lift_Ok _ _ _ Hnsentences). cbv beta.
  rewrite (Log_bind_lift_Ok _ _ _ Hsample_size). cbv beta.
  rewrite (Log_bind_lift_Ok _ _ _ (py_truediv_tensor _ _)). cbv beta.
  rewrite (Log_bind_lift_Ok _ _ _ (py_truediv_tensor _ _)). cbv beta.
  rewrite bind_log_scalar. cbv beta.
  assert ((if has_accuracy_stats logs then
             preds ← lift (chain_key "preds" logs);
             targets ← lift (chain_key "targets" logs);
             auc ← compute_auc torch targets preds;
             log_scalar "AUC" (NFloat auc) (NInt (total_nsentences stats)) 4
           else mret tt) = tail) as ->.
  { unfold tail. destruct (has_accuracy_stats logs); [|done].
    rewrite (Log_bind_lift_Ok _ _ _ Hpreds). cbv beta.
    by rewrite (Log_bind_lift_Ok _ _ _ Htargets). }
  unfold loss_events, py_ne.
  destruct (bool_decide (total_sample_size stats = total_ntokens stats));
    cbn [negb].
  - rewrite Log_bind_ret. by destruct tail.
  - rewrite Log_bind_assoc.
    rewrite (Log_bind_lift_Ok _ _ _ (py_truediv_tensor _ _)). cbv beta.
    rewrite Log_bind_assoc.
    rewrite (Log_bind_lift_Ok _ _ _ (py_truediv_tensor _ _)). cbv beta.
    rewrite bind_log_scalar. by destruct tail.
Qed.
End Aggregation.

(** * The claims about [forward] *)

Section ForwardClaims.
Context {F : Type} `{Scalar F} {E NetInput Extra St : Type}.
Context (torch : Library F E) (margin : F).

Implicit Types (model : Model F E NetInput Extra St).
Implicit Types (sample : Sample F NetInput).
Implicit Types (self : SimilarityCriterion).
Implicit Types (log : LoggingOutput F).

(** C1. When [forward] returns, its loss is what the library's
    cosine-embedding loss returns on the logits the model produced for
    [net_input0] and for [net_input1] (in that order, the second call
    running in the state the first one left), on the flattened targets,
    with the configured margin and the sum reduction; the same value is
    stored under ['loss']. *)
Theorem forward_loss_is_cosine_embedding_loss
    self model sample reduce st loss ss log st' :
  forward torch margin self model sample reduce st = Ok (loss, ss, log, st') →
  ∃ ni0 ni1 logits0 x0 st1 logits1 x1 st2 tgt,
    net_input0 sample = Some ni0
    ∧ net_input1 sample = Some ni1
    ∧ call model ni0 (classification_head_name self) st = inr (logits0, x0, st1)
    ∧ call model ni1 (classification_head_name self) st1
      = inr (logits1, x1, st2)
    ∧ get_targets model sample [logits0] st2 = inr (tgt, st')
    ∧ cosine_embedding_loss torch logits0 logits1 (view_flat tgt) margin
        ReductionSum = inr loss
    ∧ log !! "loss" = Some (VNum (NTensor loss)).
Proof.
  intros Hf. apply forward_Ok_run in Hf.
  destruct Hf as [ni0 ni1 logits0 x0 st1 logits1 x1 st2 tgt st3 loss nt0 nt1
                    preds agree hit _ Hni0 Hc0 Hni1 Hc1 Htg Hloss _ _ _ _ _].
  exists ni0, ni1, logits0, x0, st1, logits1, x1, st2, tgt.
  repeat split; first [done | apply lookup_loss].
Qed.

(** C2. [forward] ends with an assertion failure exactly when the model
    has no [classification_heads] attribute or the attribute does not
    contain the criterion's head name; the failure carries the message of
    line 44, and it is decided by the model alone: no entry of the sample
    is read and the model is not called. *)
Theorem forward_assertion_iff self model sample reduce st msg :
  forward torch margin self model sample reduce st = Err (AssertionError msg)
  ↔ msg = head_message
    ∧ (classification_heads model = None
       ∨ ∃ heads, classification_heads model = Some heads
                  ∧ classification_head_name self ∉ heads).
Proof.
  rewrite <- has_head_false. split.
  - intros Hf. apply forward_Err_cases in Hf as [[Hhead [= ->]]|[_ Hdown]].
    + done.
    + destruct Hdown as [[key [=]]|[[=]|[e' [=]]]].
  - intros [-> Hhead]. by apply forward_without_head.
Qed.

(** C5. When [forward] returns [(loss, sample_size, logging_output)], the
    sample size is the number of elements of the flattened targets, and
    the dictionary holds that number under ['nsentences'] and under
    ['sample_size']. *)
Theorem forward_sample_size self model sample reduce st loss ss log st' :
  forward torch margin self model sample reduce st = Ok (loss, ss, log, st') →
  ∃ logits0 st2 tgt,
    get_targets model sample [logits0] st2 = inr (tgt, st')
    ∧ ss = Z.of_nat (length (view_flat tgt))
    ∧ log !! "nsentences" = Some (VNum (NInt ss))
    ∧ log !! "sample_size" = Some (VNum (NInt ss)).
Proof.
  intros Hf. apply forward_Ok_run in Hf.
  destruct Hf as [ni0 ni1 logits0 x0 st1 logits1 x1 st2 tgt st3 loss nt0 nt1
                    preds agree hit _ _ _ _ _ Htg _ _ _ _ _ _].
  exists logits0, st2, tgt. split; [done|]. split; [done|].
  split; [apply lookup_nsentences | apply lookup_sample_size].
Qed.

(** C10, as amended. The targets list has exactly [nsentences] elements
    and [ncorrect] is not negative; when the predictions are as many as
    the targets (no broadcasting in the comparisons), [ncorrect] is at
    most [min(ncorrect_pred, ncorrect_actual)], [ncorrect_total] at most
    [nsentences], and the preds list has [nsentences] elements too. *)
Theorem forward_counts_bounded self model sample reduce st loss ss log st' :
  forward torch margin self model sample reduce st = Ok (loss, ss, log, st') →
  ∃ ncorrect ncorrect_total ncorrect_pred ncorrect_actual preds targets,
    log !! "ncorrect" = Some (VNum (NInt ncorrect))
    ∧ log !! "ncorrect_total" = Some (VNum (NInt ncorrect_total))
    ∧ log !! "ncorrect_pred" = Some (VNum (NInt ncorrect_pred))
    ∧ log !! "ncorrect_actual" = Some (VNum (NInt ncorrect_actual))
    ∧ log !! "preds" = Some (VList preds)
    ∧ log !! "targets" = Some (VList targets)
    ∧ log !! "nsentences" = Some (VNum (NInt ss))
    ∧ 0 ≤ ncorrect
    ∧ Z.of_nat (length targets) = ss
    ∧ (length preds = length targets →
       ncorrect ≤ Z.min ncorrect_pred ncorrect_actual
       ∧ ncorrect_total ≤ ss
       ∧ Z.of_nat (length preds) = ss).
Proof.
  intros Hf. apply forward_Ok_run in Hf.
  destruct Hf as [ni0 ni1 logits0 x0 st1 logits1 x1 st2 tgt st3 loss nt0 nt1
                    preds agree hit _ _ _ _ _ _ _ _ _ _ Hagree Hhit].
  eexists _, _, _, _, preds, (view_flat tgt).
  split; [apply lookup_ncorrect|]. split; [apply lookup_ncorrect_total|].
  split; [apply lookup_ncorrect_pred|]. split; [apply lookup_ncorrect_actual|].
  split; [apply lookup_preds|]. split; [apply lookup_targets|].
  split; [apply lookup_nsentences|].
  split; [apply sum_item_nonneg|]. split; [done|].
  intros Hlen.
  set (p := tensor_gt preds margin) in *.
  set (t := tensor_gt (view_flat tgt) margin) in *.
  assert (length p = length t) as Hpt
    by (unfold p, t, tensor_gt; by rewrite !length_map).
  assert (length t = length (view_flat tgt)) as Ht
    by (unfold t, tensor_gt; by rewrite length_map).
  unfold tensor_eq in Hagree. rewrite broadcast2_same_length in Hagree by done.
  injection Hagree as <-.
  unfold tensor_mul in Hhit.
  rewrite broadcast2_same_length in Hhit
    by (by rewrite length_zip_with_same).
  injection Hhit as <-.
  destruct (sum_item_hits p t Hpt) as [Hp Hact].
  split; [lia|]. split.
  - etransitivity; [apply sum_item_le_length|].
    rewrite length_zip_with_same by done. unfold numel. lia.
  - unfold numel. lia.
Qed.

(** C6, as amended. [logging_outputs_can_be_summed] answers no.  In a
    dictionary that [forward] returns the entries ['preds'] and
    ['targets'] are Python lists, not numbers, and a sum over workers of
    either of them, as lines 102-105 compute for the four scalar totals,
    ends with a [TypeError]; the other eight entries are numbers. *)
Theorem logging_outputs_not_summable self model sample reduce st loss ss log st' :
  forward torch margin self model sample reduce st = Ok (loss, ss, log, st') →
  logging_outputs_can_be_summed = false
  ∧ (∃ preds targets,
       log !! "preds" = Some (VList preds)
       ∧ log !! "targets" = Some (VList targets))
  ∧ (∀ logs, sum_key (E:=E) "preds" (log :: logs) = Err TypeError
             ∧ sum_key (E:=E) "targets" (log :: logs) = Err TypeError)
  ∧ (∀ key, key ∈ ["loss"; "ntokens"; "nsentences"; "sample_size";
                   "ncorrect"; "ncorrect_total"; "ncorrect_pred";
                   "ncorrect_actual"] →
            ∃ n, log !! key = Some (VNum n)).
Proof.
  intros Hf. apply forward_Ok_run in Hf.
  destruct Hf as [ni0 ni1 logits0 x0 st1 logits1 x1 st2 tgt st3 loss nt0 nt1
                    preds agree hit _ _ _ _ _ _ _ _ _ _ _ _].
  split; [done|]. split.
  { exists preds, (view_flat tgt).
    split; [apply lookup_preds | apply lookup_targets]. }
  split.
  { intros logs. unfold sum_key, py_sum. cbn [map py_sum_from]. split.
    - by rewrite (get_or_0_lookup _ _ _ (lookup_preds _ _ _ _ _ _ _ _ _)).
    - by rewrite (get_or_0_lookup _ _ _ (lookup_targets _ _ _ _ _ _ _ _ _)). }
  intros key Hkey.
  repeat (apply elem_of_cons in Hkey as [->|Hkey]; [eexists; reflexivity|]).
  by apply elem_of_nil in Hkey.
Qed.
End ForwardClaims.

(** * The claims about [reduce_metrics] *)

Section ReduceClaims.
Context {F : Type} `{Scalar F} {E NetInput Extra St : Type}.
Context (torch : Library F E) (margin : F).

Implicit Types (model : Model F E NetInput Extra St).
Implicit Types (sample : Sample F NetInput).
Implicit Types (self : SimilarityCriterion).
Implicit Types (log : LoggingOutput F).
Implicit Types (logs : list (LoggingOutput F)).








(** C9. With [targets] the pooled target list: [roc_auc_score] is called
    only on [targets] and the pooled predictions, and only when [targets]
    holds exactly two distinct values; when it does not, every value
    logged under ['AUC'] is [1.0], whatever the predictions, and a run
    that passes the test of line 111 and returns does log it, last. *)
Theorem auc_is_one_without_two_classes logs targets :
  chain_key (E:=E) "targets" logs = Ok targets →
  (∀ y_true y_score,
     RocAucCall y_true y_score ∈ (reduce_metrics torch logs).1 →
     y_true = targets
     ∧ chain_key (E:=E) "preds" logs = Ok y_score
     ∧ length (py_set targets) = 2%nat)
  ∧ (length (py_set targets) ≠ 2%nat →
     (∀ v w r, LogScalar "AUC" v w r ∈ (reduce_metrics torch logs).1 →
               v = NFloat (Fof_Z 1))
     ∧ (has_accuracy_stats logs = true →
        (reduce_metrics torch logs).2 = Ok tt →
        ∃ t0 w, (reduce_metrics torch logs).1
                = t0 ++ [LogScalar "AUC" (NFloat (Fof_Z 1)) w 4])).
Proof.
  intros Htargets.
  destruct (reduce_metrics_shape torch logs) as (t0 & tail & -> & Ht0 & Htail).
  cbn [fst snd].
  assert (∀ ev, ev ∈ t0 → is_loss_event ev) as Hloss
    by (by apply Forall_forall).
  split.
  - intros y_true y_score [Hin|Hin]%elem_of_app.
    { destruct (Hloss _ Hin) as (v & w & [[=]|[=]]). }
    destruct Htail as [e|Hno|targets' preds ns Hyes Htargets' Hpreds Hns];
      [by apply elem_of_nil in Hin..|].
    assert (targets' = targets) as -> by congruence.
    destruct (decide (length (py_set targets) = 2%nat)) as [Hset|Hset].
    + rewrite (log_auc_roc torch targets preds ns Hset) in Hin.
      destruct (roc_auc_score torch targets preds); cbn [fst] in Hin.
      * apply list_elem_of_singleton in Hin as [= -> ->]. done.
      * apply elem_of_cons in Hin as [[= -> ->]|Hin]; [done|].
        by apply list_elem_of_singleton in Hin.
    + rewrite (log_auc_default torch targets preds ns Hset) in Hin.
      by apply list_elem_of_singleton in Hin.
  - intros Hset. split.
    + intros v w r [Hin|Hin]%elem_of_app.
      { destruct (Hloss _ Hin) as (v' & w' & [[=]|[=]]). }
      destruct Htail as [e|Hno|targets' preds ns Hyes Htargets' Hpreds Hns];
        [by apply elem_of_nil in Hin..|].
      assert (targets' = targets) as -> by congruence.
      rewrite (log_auc_default torch targets preds ns Hset) in Hin.
      by apply list_elem_of_singleton in Hin as [= -> _ _].
    + intros Hstats Hok.
      destruct Htail as [e|Hno|targets' preds ns Hyes Htargets' Hpreds Hns].
      * discriminate Hok.
      * congruence.
      * assert (targets' = targets) as -> by congruence.
        rewrite (log_auc_default torch targets preds ns Hset). eauto.
Qed.

End ReduceClaims.

(** * Runs on concrete batches *)

Lemma forward_two_class :
  exact_forward example_model two_class_batch true 0%nat
  = Ok (Exact.Fin (3 # 2), 3, two_class_log, 2%nat).
Proof. reflexivity. Qed.

Lemma forward_one_class :
  exact_forward example_model one_class_batch true 0%nat
  = Ok (Exact.Fin 1, 2, one_class_log, 2%nat).
Proof. reflexivity. Qed.

Lemma forward_broadcast :
  exact_forward example_model broadcast_batch true 0%nat
  = Ok (Exact.Fin 0, 3, broadcast_log, 2%nat).
Proof. reflexivity. Qed.

Lemma forward_empty :
  exact_forward example_model empty_batch true 0%nat
  = Ok (Exact.Fin 0, 0, empty_log, 2%nat).
Proof. reflexivity. Qed.

Lemma forward_without_heads :
  exact_forward (Exact.encoder None) two_class_batch true 0%nat
  = Err (AssertionError head_message).
Proof. reflexivity. Qed.

Lemma reduce_two_workers :
  reduce_metrics Exact.torch [two_class_log; two_class_log]
  = ([LogScalar "loss"
        (NTensor (Exact.Fin (5000000000000000 # 6931471805599453))) (NInt 6) 3;
      LogScalar "nll_loss"
        (NTensor (Exact.Fin (1250000000000000 # 6931471805599453))) (NInt 24) 3;
      RocAucCall (Exact.vec [1; -1; 1; 1; -1; 1]) (Exact.vec [1; 1; 0; 1; 1; 0]);
      LogScalar "AUC" (NFloat (Exact.Fin (1 # 4))) (NInt 6) 4],
     Ok tt).
Proof. reflexivity. Qed.

Lemma reduce_one_class :
  reduce_metrics Exact.torch [one_class_log]
  = ([LogScalar "loss"
        (NTensor (Exact.Fin (5000000000000000 # 6931471805599453))) (NInt 2) 3;
      LogScalar "nll_loss"
        (NTensor (Exact.Fin (1000000000000000 # 6931471805599453))) (NInt 10) 3;
      LogScalar "AUC" (NFloat (Exact.Fin 1)) (NInt 2) 4],
     Ok tt).
Proof. reflexivity. Qed.

Lemma reduce_empty_batch :
  reduce_metrics Exact.torch [empty_log]
  = ([LogScalar "loss" (NTensor Exact.NaN) (NInt 0) 3;
      LogScalar "AUC" (NFloat (Exact.Fin 1)) (NInt 0) 4],
     Ok tt).
Proof. reflexivity. Qed.

Lemma reduce_no_worker :
  reduce_metrics Exact.torch [] = ([], Err ZeroDivisionError).
Proof. reflexivity. Qed.

Lemma two_class_produced : exact_produced two_class_log.
Proof.
  exists Exact.similarity, example_model, two_class_batch, true, 0%nat,
    (Exact.Fin (3 # 2)), 3, 2%nat. reflexivity.
Qed.

Lemma one_class_produced : exact_produced one_class_log.
Proof.
  exists Exact.similarity, example_model, one_class_batch, true, 0%nat,
    (Exact.Fin 1), 2, 2%nat. reflexivity.
Qed.


Lemma two_class_has_stats : has_stats two_class_log two_class_stats.
Proof. by repeat split. Qed.

(** ** Instances of the theorems *)

(** The loss of the two-class batch is the library's: 0 + 1/2 + 1. *)
Lemma forward_loss_witness :
  exact_forward example_model two_class_batch true 0%nat
  = Ok (Exact.Fin (3 # 2), 3, two_class_log, 2%nat)
  ∧ ∃ ni0 ni1 logits0 x0 st1 logits1 x1 st2 tgt,
      net_input0 two_class_batch = Some ni0
      ∧ net_input1 two_class_batch = Some ni1
      ∧ call example_model ni0 "similarity" 0%nat = inr (logits0, x0, st1)
      ∧ call example_model ni1 "similarity" st1 = inr (logits1, x1, st2)
      ∧ get_targets example_model two_class_batch [logits0] st2 = inr (tgt, 2%nat)
      ∧ Exact.cos_loss logits0 logits1 (view_flat tgt) Exact.margin ReductionSum
        = inr (Exact.Fin (3 # 2))
      ∧ two_class_log !! "loss" = Some (VNum (NTensor (Exact.Fin (3 # 2)))).
Proof.
  split; [reflexivity|].
  apply (forward_loss_is_cosine_embedding_loss Exact.torch Exact.margin
           Exact.similarity example_model two_class_batch true 0%nat
           (Exact.Fin (3 # 2)) 3 two_class_log 2%nat).
  reflexivity.
Defined.

Lemma forward_sample_size_witness :
  exact_forward example_model two_class_batch true 0%nat
  = Ok (Exact.Fin (3 # 2), 3, two_class_log, 2%nat)
  ∧ ∃ logits0 st2 tgt,
      get_targets example_model two_class_batch [logits0] st2 = inr (tgt, 2%nat)
      ∧ 3 = Z.of_nat (length (view_flat tgt))
      ∧ two_class_log !! "nsentences" = Some (VNum (NInt 3))
      ∧ two_class_log !! "sample_size" = Some (VNum (NInt 3)).
Proof.
  split; [reflexivity|].
  apply (forward_sample_size Exact.torch Exact.margin Exact.similarity
           example_model two_class_batch true 0%nat (Exact.Fin (3 # 2)) 3
           two_class_log 2%nat).
  reflexivity.
Defined.

Lemma forward_counts_witness :
  exact_forward example_model two_class_batch true 0%nat
  = Ok (Exact.Fin (3 # 2), 3, two_class_log, 2%nat)
  ∧ ∃ ncorrect ncorrect_total ncorrect_pred ncorrect_actual preds targets,
      two_class_log !! "ncorrect" = Some (VNum (NInt ncorrect))
      ∧ two_class_log !! "ncorrect_total" = Some (VNum (NInt ncorrect_total))
      ∧ two_class_log !! "ncorrect_pred" = Some (VNum (NInt ncorrect_pred))
      ∧ two_class_log !! "ncorrect_actual" = Some (VNum (NInt ncorrect_actual))
      ∧ two_class_log !! "preds" = Some (VList preds)
      ∧ two_class_log !! "targets" = Some (VList targets)
      ∧ two_class_log !! "nsentences" = Some (VNum (NInt 3))
      ∧ 0 ≤ ncorrect
      ∧ Z.of_nat (length targets) = 3
      ∧ (length preds = length targets →
         ncorrect ≤ Z.min ncorrect_pred ncorrect_actual
         ∧ ncorrect_total ≤ 3
         ∧ Z.of_nat (length preds) = 3).
Proof.
  split; [reflexivity|].
  apply (forward_counts_bounded Exact.torch Exact.margin Exact.similarity
           example_model two_class_batch true 0%nat (Exact.Fin (3 # 2)) 3
           two_class_log 2%nat).
  reflexivity.
Defined.

Lemma logging_outputs_not_summable_witness :
  exact_forward example_model two_class_batch true 0%nat
  = Ok (Exact.Fin (3 # 2), 3, two_class_log, 2%nat)
  ∧ logging_outputs_can_be_summed = false
  ∧ sum_key (E:=Exact.error) "preds" [two_class_log; two_class_log]
    = Err TypeError.
Proof.
  assert (exact_forward example_model two_class_batch true 0%nat
          = Ok (Exact.Fin (3 # 2), 3, two_class_log, 2%nat)) as Hrun
    by reflexivity.
  split; [exact Hrun|].
  destruct (logging_outputs_not_summable Exact.torch Exact.margin
              Exact.similarity example_model two_class_batch true 0%nat
              (Exact.Fin (3 # 2)) 3 two_class_log 2%nat Hrun)
    as (Hno & _ & Hsum & _).
  split; [exact Hno|]. exact (proj1 (Hsum [two_class_log])).
Defined.




Lemma auc_is_one_witness :
  chain_key (E:=Exact.error) "targets" [one_class_log] = Ok (Exact.vec [1; 1])
  ∧ length (py_set (Exact.vec [1; 1])) ≠ 2%nat
  ∧ (∀ y_true y_score,
       RocAucCall y_true y_score ∉ (reduce_metrics Exact.torch [one_class_log]).1)
  ∧ ∃ t0 w, (reduce_metrics Exact.torch [one_class_log]).1
            = t0 ++ [LogScalar "AUC" (NFloat (Exact.Fin 1)) w 4].
Proof.
  assert (length (py_set (Exact.vec [1; 1])) ≠ 2%nat) as Hset by discriminate.
  assert (chain_key (E:=Exact.error) "targets" [one_class_log]
          = Ok (Exact.vec [1; 1])) as Htargets by reflexivity.
  destruct (auc_is_one_without_two_classes Exact.torch [one_class_log]
              (Exact.vec [1; 1]) Htargets) as [Hcall Hone].
  split; [exact Htargets|]. split; [exact Hset|]. split.
  - intros y_true y_score Hin.
    destruct (Hcall y_true y_score Hin) as (_ & _ & Htwo). exact (Hset Htwo).
  - apply (proj2 (Hone Hset)); reflexivity.
Defined.

(** ** Inputs on which the claims as first stated fail *)


(** C6. The method answers [False], and Python's [sum] over the ['preds']
    entries of two workers raises. *)
Lemma can_be_summed_counterexample :
  logging_outputs_can_be_summed ≠ true
  ∧ exact_produced two_class_log
  ∧ sum_key (E:=Exact.error) "preds" [two_class_log; two_class_log]
    = Err TypeError.
Proof.
  split; [discriminate|]. split; [exact two_class_produced | reflexivity].
Qed.


(** C10. One row of logits against three targets: the comparisons
    broadcast, [ncorrect] is 3 although [ncorrect_pred] is 1, and the
    preds list has one element for [nsentences = 3]. *)
Lemma counts_counterexample :
  exact_forward example_model broadcast_batch true 0%nat
  = Ok (Exact.Fin 0, 3, broadcast_log, 2%nat)
  ∧ broadcast_log !! "ncorrect" = Some (VNum (NInt 3))
  ∧ broadcast_log !! "ncorrect_pred" = Some (VNum (NInt 1))
  ∧ broadcast_log !! "ncorrect_actual" = Some (VNum (NInt 3))
  ∧ ¬ (3 ≤ Z.min 1 3)
  ∧ broadcast_log !! "nsentences" = Some (VNum (NInt 3))
  ∧ broadcast_log !! "preds" = Some (VList [Exact.Fin 1])
  ∧ length [Exact.Fin 1] ≠ 3%nat.
Proof. repeat split; first [reflexivity | discriminate | lia]. Qed.

(** * Further properties *)

(** ** Broadcasting and counting *)

Section TensorExtras.
Context {E : Type}.

Lemma broadcast2_compatible {A} (f : A → A → A) (xs ys : list A) :
  compatible (length xs) (length ys) = true →
  ∃ zs, broadcast2 (E:=E) f xs ys = Ok zs
        ∧ length zs = broadcast_length (length xs) (length ys).
Proof.
  unfold compatible, broadcast2, broadcast_length. intros Hc.
  destruct (decide (length xs = length ys)) as [Hlen|Hlen].
  - eexists. split; [done|]. rewrite length_zip_with.
    destruct (decide _); lia.
  - rewrite bool_decide_eq_false_2 in Hc by done. cbn [orb] in Hc.
    destruct xs as [|x [|x' xs]], ys as [|y [|y' ys]]; cbn in Hc, Hlen |- *;
      try done; eexists; (split; [done|]); cbn; by rewrite ?length_map.
Qed.

Lemma broadcast2_Ok_length {A} (f : A → A → A) (xs ys zs : list A) :
  broadcast2 (E:=E) f xs ys = Ok zs →
  compatible (length xs) (length ys) = true
  ∧ length zs = broadcast_length (length xs) (length ys).
Proof.
  intros Hb. destruct (compatible (length xs) (length ys)) eqn:Hc.
  - destruct (broadcast2_compatible f xs ys Hc) as (zs' & Hzs & Hlen).
    split; [done|]. congruence.
  - unfold compatible in Hc. unfold broadcast2 in Hb.
    apply orb_false_iff in Hc as [Hc H3]. apply orb_false_iff in Hc as [H1 H2].
    apply bool_decide_eq_false in H1, H2, H3.
    rewrite decide_False in Hb by done.
    destruct xs as [|x [|x' xs]], ys as [|y [|y' ys]]; cbn in *; done.
Qed.

(** After [p == t] has been computed, the product with [t] cannot fail. *)
Lemma broadcast2_again {A} (f : A → A → A) (xs ys zs : list A) :
  broadcast2 (E:=E) f xs ys = Ok zs →
  compatible (length zs) (length ys) = true
  ∧ (length zs = 1%nat → length ys = 1%nat).
Proof.
  intros [Hc Hlen]%broadcast2_Ok_length. rewrite Hlen.
  unfold compatible, broadcast_length in *.
  destruct (decide (length xs = 1%nat)) as [H1|H1].
  - by rewrite bool_decide_eq_true_2.
  - rewrite (bool_decide_eq_false_2 _ H1), orb_false_r in Hc |- *.
    split; [done | lia].
Qed.

Lemma sum_item_map_le (f : bool → bool) (xs : list bool) :
  (∀ b, f b = true → b = true) →
  sum_item (map f xs) ≤ sum_item xs.
Proof.
  intros Hf. induction xs as [|b xs IH]; [done|].
  cbn [map]. rewrite !sum_item_cons.
  destruct (f b) eqn:Hfb; [rewrite (Hf _ Hfb)|destruct b]; lia.
Qed.

Lemma sum_item_zip_andb_le (xs ys : list bool) :
  sum_item (zip_with andb xs ys) ≤ sum_item xs.
Proof.
  revert ys. induction xs as [|a xs IH]; intros [|b ys]; cbn [zip_with];
    rewrite ?sum_item_cons; try (pose proof (sum_item_nonneg xs)); try done.
  - destruct a; unfold sum_item; cbn; lia.
  - specialize (IH ys). destruct a, b; cbn; lia.
Qed.

(** The hits are among the agreements, with or without broadcasting. *)
Lemma sum_item_mul_le (agree t hit : list bool) :
  (length agree = 1%nat → length t = 1%nat) →
  tensor_mul (E:=E) agree t = Ok hit → sum_item hit ≤ sum_item agree.
Proof.
  unfold tensor_mul, broadcast2. intros H1 Hhit.
  destruct (decide (length agree = length t)) as [Hlen|Hlen].
  - injection Hhit as <-. apply sum_item_zip_andb_le.
  - destruct agree as [|a [|a' agree]], t as [|y [|y' t]]; cbn in *;
      try done; try (by specialize (H1 eq_refl)).
    + injection Hhit as <-. done.
    + injection Hhit as <-.
      change (a && y :: a' && y :: map (λ x, x && y) agree)
        with (map (λ x, x && y) (a :: a' :: agree)).
      apply sum_item_map_le. by intros b [-> _]%andb_true_iff.
Qed.

(** Agreements are true positives plus true negatives. *)
Lemma sum_item_agreements (p t : list bool) :
  length p = length t →
  sum_item (zip_with Bool.eqb p t)
  = Z.of_nat (length t) - sum_item p - sum_item t
    + 2 * sum_item (zip_with andb (zip_with Bool.eqb p t) t).
Proof.
  revert t. induction p as [|a p IH]; intros [|b t] Hlen; try done.
  injection Hlen as Hlen. specialize (IH t Hlen).
  cbn [zip_with]. rewrite !sum_item_cons. cbn [length].
  destruct a, b; cbn; lia.
Qed.

Lemma sum_item_tensor_gt {F} `{Scalar F} (xs : list F) (c : F) :
  sum_item (tensor_gt xs c) = count_gt xs c.
Proof.
  unfold count_gt. induction xs as [|x xs IH]; [done|].
  cbn [tensor_gt map]. rewrite sum_item_cons, filter_cons.
  unfold tensor_gt in IH. rewrite IH.
  destruct (Fgt x c); [rewrite decide_True by done|rewrite decide_False by done];
    cbn [length]; lia.
Qed.
End TensorExtras.

(** ** A sample without a net input *)

Section ForwardMissingInput.
Context {F : Type} `{Scalar F} {E NetInput Extra St : Type}.
Context (torch : Library F E) (margin : F).

Implicit Types (model : Model F E NetInput Extra St).
Implicit Types (sample : Sample F NetInput).
Implicit Types (self : SimilarityCriterion).

(** X1. With the head there, a sample without ['net_input0'] makes
    [forward] end with [KeyError('net_input0')] whatever the model is: it
    is not called.  A sample with ['net_input0'] but without
    ['net_input1'] makes it end with [KeyError('net_input1')] once the
    first call of the model has returned, whatever that call returned and
    whatever else the sample holds. *)
Theorem forward_missing_net_input self model sample reduce st :
  has_head self model = true →
  (net_input0 sample = None →
   forward torch margin self model sample reduce st
   = Err (KeyError "net_input0"))
  ∧ (∀ ni0 logits0 x0 st1,
       net_input0 sample = Some ni0 →
       call model ni0 (classification_head_name self) st
       = inr (logits0, x0, st1) →
       net_input1 sample = None →
       forward torch margin self model sample reduce st
       = Err (KeyError "net_input1")).
Proof.
  intros Hhead. unfold forward. rewrite Hhead.
  cbn [assert_ mbind result_bind]. split.
  - by intros ->.
  - intros ni0 logits0 x0 st1 -> Hcall Hnone.
    cbn [getitem mbind result_bind]. rewrite Hcall.
    cbn [callee mbind result_bind]. by rewrite Hnone.
Qed.
End ForwardMissingInput.

(** ** The entries of the dictionary *)

Section ForwardEntries.
Context {F : Type} `{Scalar F} {E NetInput Extra St : Type}.
Context (torch : Library F E) (margin : F).

Implicit Types (model : Model F E NetInput Extra St).
Implicit Types (sample : Sample F NetInput).
Implicit Types (self : SimilarityCriterion).
Implicit Types (log : LoggingOutput F).



(** X5. In the dictionary [forward] returns, ['preds'] is the library's
    cosine similarity of the logits of [net_input0] and of [net_input1],
    ['targets'] the flattened targets, ['ncorrect_pred'] the number of
    predictions above the margin and ['ncorrect_actual'] the number of
    targets above the margin. *)
Theorem forward_prediction_entries self model sample reduce st loss ss log st' :
  forward torch margin self model sample reduce st = Ok (loss, ss, log, st') →
  ∃ ni0 ni1 logits0 x0 st1 logits1 x1 st2 tgt preds,
    net_input0 sample = Some ni0
    ∧ net_input1 sample = Some ni1
    ∧ call model ni0 (classification_head_name self) st = inr (logits0, x0, st1)
    ∧ call model ni1 (classification_head_name self) st1
      = inr (logits1, x1, st2)
    ∧ get_targets model sample [logits0] st2 = inr (tgt, st')
    ∧ cosine_similarity torch logits0 logits1 = inr preds
    ∧ log !! "preds" = Some (VList preds)
    ∧ log !! "targets" = Some (VList (view_flat tgt))
    ∧ log !! "ncorrect_pred" = Some (VNum (NInt (count_gt preds margin)))
    ∧ log !! "ncorrect_actual"
      = Some (VNum (NInt (count_gt (view_flat tgt) margin))).
Proof.
  intros Hf. apply forward_Ok_run in Hf.
  destruct Hf as [ni0 ni1 logits0 x0 st1 logits1 x1 st2 tgt st3 loss nt0 nt1
                    preds agree hit _ Hni0 Hc0 Hni1 Hc1 Htg _ _ _ Hp _ _].
  exists ni0, ni1, logits0, x0, st1, logits1, x1, st2, tgt, preds.
  rewrite <- !sum_item_tensor_gt.
  repeat split; first [done | apply lookup_preds | apply lookup_targets
                      | apply lookup_ncorrect_pred | apply lookup_ncorrect_actual].
Qed.

(** X6. With or without broadcasting, the four counts are not negative,
    [ncorrect <= ncorrect_total <= max(len(preds), nsentences)],
    [ncorrect_pred <= len(preds)] and [ncorrect_actual <= nsentences];
    the targets list has [nsentences] elements, and its shape and that of
    the predictions broadcast. *)
Theorem forward_counts_unconditional
    self model sample reduce st loss ss log st' :
  forward torch margin self model sample reduce st = Ok (loss, ss, log, st') →
  ∃ ncorrect ncorrect_total ncorrect_pred ncorrect_actual preds targets,
    log !! "ncorrect" = Some (VNum (NInt ncorrect))
    ∧ log !! "ncorrect_total" = Some (VNum (NInt ncorrect_total))
    ∧ log !! "ncorrect_pred" = Some (VNum (NInt ncorrect_pred))
    ∧ log !! "ncorrect_actual" = Some (VNum (NInt ncorrect_actual))
    ∧ log !! "preds" = Some (VList preds)
    ∧ log !! "targets" = Some (VList targets)
    ∧ Z.of_nat (length targets) = ss
    ∧ compatible (length preds) (length targets) = true
    ∧ 0 ≤ ncorrect ≤ ncorrect_total
    ∧ ncorrect_total ≤ Z.max (Z.of_nat (length preds)) ss
    ∧ 0 ≤ ncorrect_pred ≤ Z.of_nat (length preds)
    ∧ 0 ≤ ncorrect_actual ≤ ss.
Proof.
  intros Hf. apply forward_Ok_run in Hf.
  destruct Hf as [ni0 ni1 logits0 x0 st1 logits1 x1 st2 tgt st3 loss nt0 nt1
                    preds agree hit _ _ _ _ _ _ _ _ _ _ Hagree Hhit].
  eexists _, _, _, _, preds, (view_flat tgt).
  split; [apply lookup_ncorrect|]. split; [apply lookup_ncorrect_total|].
  split; [apply lookup_ncorrect_pred|]. split; [apply lookup_ncorrect_actual|].
  split; [apply lookup_preds|]. split; [apply lookup_targets|].
  split; [done|].
  set (p := tensor_gt preds margin) in *.
  set (t := tensor_gt (view_flat tgt) margin) in *.
  assert (length p = length preds) as Hp
    by (unfold p, tensor_gt; by rewrite length_map).
  assert (length t = length (view_flat tgt)) as Ht
    by (unfold t, tensor_gt; by rewrite length_map).
  destruct (broadcast2_again _ _ _ _ Hagree) as [_ Hone].
  pose proof (sum_item_mul_le agree t hit Hone Hhit) as Hle.
  apply broadcast2_Ok_length in Hagree as [Hc Hlen].
  pose proof (sum_item_le_length agree) as Hla.
  pose proof (sum_item_le_length p) as Hlp.
  pose proof (sum_item_le_length t) as Hlt.
  pose proof (sum_item_nonneg hit). pose proof (sum_item_nonneg p).
  pose proof (sum_item_nonneg t).
  rewrite Hlen in Hla. unfold broadcast_length in Hla.
  unfold numel. rewrite Hp, Ht in *.
  split; [done|]. repeat split; try lia.
  destruct (decide _); lia.
Qed.

(** X7. When there are as many predictions as targets, the agreements
    are the true positives and the true negatives:
    [ncorrect_total = nsentences - ncorrect_pred - ncorrect_actual
    + 2 * ncorrect]. *)
Theorem forward_confusion_identity
    self model sample reduce st loss ss log st' :
  forward torch margin self model sample reduce st = Ok (loss, ss, log, st') →
  ∃ ncorrect ncorrect_total ncorrect_pred ncorrect_actual preds,
    log !! "ncorrect" = Some (VNum (NInt ncorrect))
    ∧ log !! "ncorrect_total" = Some (VNum (NInt ncorrect_total))
    ∧ log !! "ncorrect_pred" = Some (VNum (NInt ncorrect_pred))
    ∧ log !! "ncorrect_actual" = Some (VNum (NInt ncorrect_actual))
    ∧ log !! "preds" = Some (VList preds)
    ∧ (Z.of_nat (length preds) = ss →
       ncorrect_total
       = ss - ncorrect_pred - ncorrect_actual + 2 * ncorrect).
Proof.
  intros Hf. apply forward_Ok_run in Hf.
  destruct Hf as [ni0 ni1 logits0 x0 st1 logits1 x1 st2 tgt st3 loss nt0 nt1
                    preds agree hit _ _ _ _ _ _ _ _ _ _ Hagree Hhit].
  eexists _, _, _, _, preds.
  split; [apply lookup_ncorrect|]. split; [apply lookup_ncorrect_total|].
  split; [apply lookup_ncorrect_pred|]. split; [apply lookup_ncorrect_actual|].
  split; [apply lookup_preds|].
  intros Hlen. unfold numel in Hlen. apply Nat2Z.inj in Hlen.
  set (p := tensor_gt preds margin) in *.
  set (t := tensor_gt (view_flat tgt) margin) in *.
  assert (length p = length t) as Hpt
    by (unfold p, t, tensor_gt; by rewrite !length_map).
  assert (length t = length (view_flat tgt)) as Ht
    by (unfold t, tensor_gt; by rewrite length_map).
  unfold tensor_eq in Hagree. rewrite broadcast2_same_length in Hagree by done.
  injection Hagree as <-.
  unfold tensor_mul in Hhit.
  rewrite broadcast2_same_length in Hhit
    by (by rewrite length_zip_with_same).
  injection Hhit as <-.
  rewrite (sum_item_agreements p t Hpt). unfold numel. lia.
Qed.
End ForwardEntries.

(** ** Sums and chains over the workers *)

Section SumsAndChains.
Context {F : Type} `{Scalar F} {E : Type}.

Implicit Types (logs : list (LoggingOutput F)).
Implicit Types (log : LoggingOutput F).

Lemma py_sum_from_Err (acc : pynum F) (vs : list (pyval F)) (e : exn E) :
  py_sum_from acc vs = Err e → e = TypeError ∧ ∃ l, VList l ∈ vs.
Proof.
  revert acc. induction vs as [|v vs IH]; intros acc; [discriminate|].
  cbn [py_sum_from]. destruct v as [n|l]; cbn [py_add mbind result_bind].
  - intros [-> [l Hl]]%IH. split; [done|]. exists l. by right.
  - intros [= <-]. split; [done|]. exists l. by left.
Qed.


Lemma chain_from_iterable_Err (vs : list (pyval F)) (e : exn E) :
  chain_from_iterable vs = Err e → e = TypeError ∧ ∃ n, VNum n ∈ vs.
Proof.
  induction vs as [|v vs IH]; [discriminate|].
  cbn [chain_from_iterable]. destruct v as [n|l].
  - intros [= <-]. split; [done|]. exists n. by left.
  - destruct (chain_from_iterable vs) as [rest|e'] eqn:Hrest; [discriminate|].
    cbn [mbind result_bind]. intros [= <-].
    destruct (IH eq_refl) as [-> [n Hn]]. split; [done|]. exists n. by right.
Qed.

Lemma chain_from_iterable_num (vs : list (pyval F)) n :
  VNum n ∈ vs → chain_from_iterable (E:=E) vs = Err TypeError.
Proof.
  induction vs as [|v vs IH]; intros Hin.
  - by apply elem_of_nil in Hin.
  - cbn [chain_from_iterable]. apply elem_of_cons in Hin as [<-|Hin]; [done|].
    destruct v as [n'|l]; [done|]. by rewrite (IH Hin).
Qed.

Lemma chain_from_iterable_app (us vs : list (pyval F)) :
  chain_from_iterable (E:=E) (us ++ vs)
  = (xs ← chain_from_iterable us; ys ← chain_from_iterable vs; Ok (xs ++ ys)).
Proof.
  induction us as [|u us IH]; cbn [app chain_from_iterable].
  - cbn [mbind result_bind]. by destruct (chain_from_iterable vs).
  - destruct u as [n|l]; [done|]. rewrite IH.
    destruct (chain_from_iterable us) as [xs|e]; [|done].
    cbn [mbind result_bind].
    destruct (chain_from_iterable vs) as [ys|e]; [|done].
    cbn [mbind result_bind]. by rewrite app_assoc.
Qed.

Lemma py_truediv_Err (a b : pynum F) (e : exn E) :
  py_truediv a b = Err e →
  e = ZeroDivisionError ∧ is_tensor a = false ∧ is_tensor b = false
  ∧ num_is_zero b = true.
Proof.
  unfold py_truediv. destruct (is_tensor a), (is_tensor b); try discriminate.
  cbn [orb]. destruct (num_is_zero b); [by intros [= <-] | discriminate].
Qed.

Lemma get_or_0_list log key l :
  get_or_0 log key = VList l ↔ log !! key = Some (VList l).
Proof.
  unfold get_or_0. destruct (log !! key) as [v|]; simpl;
    split; intros Heq; congruence.
Qed.

Lemma elem_of_map_get_or_0 logs key (v : pyval F) :
  v ∈ map (λ log, get_or_0 log key) logs
  ↔ ∃ log, log ∈ logs ∧ get_or_0 log key = v.
Proof.
  change (map (λ log, get_or_0 log key) logs)
    with ((λ log, get_or_0 log key) <$> logs).
  rewrite list_elem_of_fmap. split; intros (log & ? & ?); eauto.
Qed.


(** X9. The chaining of the entry [key] over the workers (lines 116-117)
    raises exactly when one of the dictionaries holds no list under [key]
    (a number, or nothing: the default [0] is not iterable), and what it
    raises is a [TypeError]. *)
Theorem chain_key_raises_iff key logs (e : exn E) :
  chain_key key logs = Err e
  ↔ e = TypeError ∧ ∃ log, log ∈ logs ∧ ∀ l, log !! key ≠ Some (VList l).
Proof.
  unfold chain_key. split.
  - intros [-> [n Hn]]%chain_from_iterable_Err. split; [done|].
    apply elem_of_map_get_or_0 in Hn as (log & Hin & Hlog).
    exists log. split; [done|]. intros l Hl%get_or_0_list. congruence.
  - intros [-> (log & Hin & Hlog)].
    destruct (get_or_0 log key) as [n|l] eqn:Hget.
    + apply (chain_from_iterable_num _ n).
      apply elem_of_map_get_or_0. eauto.
    + apply get_or_0_list in Hget. by destruct (Hlog l).
Qed.

(** X10. Chaining over two lists of workers put end to end gives the two
    chains put end to end, and raises when either of them does. *)
Theorem chain_key_app key logs1 logs2 :
  chain_key (E:=E) key (logs1 ++ logs2)
  = (xs ← chain_key key logs1; ys ← chain_key key logs2; Ok (xs ++ ys)).
Proof. unfold chain_key. rewrite map_app. apply chain_from_iterable_app. Qed.

Lemma py_sum_from_ints_default key (a : Z) logs (zs : list Z) :
  Forall2 (λ log z, log !! key = Some (VNum (NInt z))
                    ∨ (log !! key = None ∧ z = 0)) logs zs →
  py_sum_from (E:=E) (NInt a) (map (λ log, get_or_0 log key) logs)
  = Ok (NInt (a + sum_Z zs)).
Proof.
  intros Hall. revert a.
  induction Hall as [|log z logs zs Hlog _ IH]; intros a.
  - cbn [map py_sum_from sum_Z foldr]. by rewrite Z.add_0_r.
  - cbn [map py_sum_from].
    assert (get_or_0 log key = VNum (NInt z)) as ->.
    { unfold get_or_0. by destruct Hlog as [->|[-> ->]]. }
    cbn [py_add num_add mbind result_bind].
    rewrite IH. cbn [sum_Z foldr]. by rewrite Z.add_assoc.
Qed.

(** X11. In a sum of integer entries a dictionary without the entry
    counts as 0. *)
Theorem sum_key_absent_counts_as_zero key logs (zs : list Z) :
  Forall2 (λ log z, log !! key = Some (VNum (NInt z))
                    ∨ (log !! key = None ∧ z = 0)) logs zs →
  sum_key (E:=E) key logs = Ok (NInt (sum_Z zs)).
Proof. intros Hall. exact (py_sum_from_ints_default key 0 logs zs Hall). Qed.

Lemma sum_Z_Permutation (zs zs' : list Z) : zs ≡ₚ zs' → sum_Z zs = sum_Z zs'.
Proof.
  induction 1 as [|z zs zs' _ IH|y z zs|zs1 zs2 zs3 _ IH1 _ IH2];
    unfold sum_Z in *; simpl; lia.
Qed.

(** X12. A sum of integer entries (an absent one counting as 0) does not
    depend on the order of the workers. *)
Theorem sum_key_ints_any_order key logs logs' :
  logs ≡ₚ logs' →
  (∀ log, log ∈ logs → ∃ z, get_or_0 log key = VNum (NInt z)) →
  ∃ total, sum_key (E:=E) key logs = Ok (NInt total)
           ∧ sum_key (E:=E) key logs' = Ok (NInt total).
Proof.
  intros Hperm Hints.
  assert (∀ ls : list (LoggingOutput F),
            (∀ log, log ∈ ls → ∃ z, get_or_0 log key = VNum (NInt z)) →
            ∃ zs, map (λ log, get_or_0 log key) ls = map (λ z, VNum (NInt z)) zs)
    as Hzs.
  { induction ls as [|log ls IH]; intros Hls; [by exists []|].
    destruct (Hls log) as [z Hz]; [by left|].
    destruct IH as [zs Hzs]; [intros ??; apply Hls; by right|].
    exists (z :: zs). cbn [map]. by rewrite Hz, Hzs. }
  assert (∀ (zs : list Z) a,
            py_sum_from (E:=E) (NInt a) (map (λ z, VNum (NInt z)) zs)
            = Ok (NInt (a + sum_Z zs))) as Hsum.
  { induction zs as [|z zs IH]; intros a; cbn [map py_sum_from sum_Z foldr].
    - by rewrite Z.add_0_r.
    - cbn [py_add num_add mbind result_bind]. rewrite IH.
      cbn [sum_Z foldr]. by rewrite Z.add_assoc. }
  destruct (Hzs logs Hints) as [zs Hlogs].
  destruct (Hzs logs') as [zs' Hlogs'].
  { intros log Hin. apply Hints. by rewrite Hperm. }
  assert (zs ≡ₚ zs') as Hp.
  { assert (map (λ log, get_or_0 log key) logs
            ≡ₚ map (λ log, get_or_0 log key) logs') as Hm by (by rewrite Hperm).
    rewrite Hlogs, Hlogs' in Hm.
    apply Permutation_map_inv in Hm as (zs'' & Heq & Hm).
    assert (zs = zs'') as ->; [|by symmetry].
    clear -Heq. revert zs'' Heq.
    induction zs as [|z zs IH]; intros [|z' zs''] [=]; [done|].
    f_equal; [done | by apply IH]. }
  exists (sum_Z zs). unfold sum_key, py_sum.
  rewrite Hlogs, Hlogs', !Hsum. by rewrite (sum_Z_Permutation _ _ Hp).
Qed.
End SumsAndChains.

(** ** Sets of targets *)

Section SetExtras.
Context {F : Type} `{Scalar F}.






End SetExtras.

(** ** The runs of [reduce_metrics], by outcome *)

Section RunExtras.
Context {F : Type} `{Scalar F} {E NetInput Extra St : Type}.
Context (torch : Library F E) (margin : F).

Implicit Types (logs : list (LoggingOutput F)).
Implicit Types (log : LoggingOutput F).
Implicit Types (stats : list (WorkerStats F)).

Ltac lift_case x Hx :=
  match goal with
  | |- context [lift ?r ≫= ?k] =>
      destruct r as [x|x] eqn:Hx;
      [ rewrite (Log_bind_lift_Ok _ k _ eq_refl); cbv beta
      | rewrite (Log_bind_lift_Err _ k _ eq_refl) ]
  end.

Lemma sum_key_Err key logs (e : exn E) :
  sum_key key logs = Err e → e = TypeError.
Proof. by intros [-> _]%py_sum_from_Err. Qed.

Lemma chain_key_Err key logs (e : exn E) :
  chain_key key logs = Err e → e = TypeError.
Proof. by intros [-> _]%chain_from_iterable_Err. Qed.

Lemma log_auc_cases targets preds ns :
  (length (py_set targets) ≠ 2%nat
   ∧ log_auc torch targets preds ns
     = ([LogScalar "AUC" (NFloat (Fof_Z 1)) ns 4], Ok tt))
  ∨ (∃ auc, length (py_set targets) = 2%nat
            ∧ roc_auc_score torch targets preds = inr auc
            ∧ log_auc torch targets preds ns
              = ([RocAucCall targets preds; LogScalar "AUC" (NFloat auc) ns 4],
                 Ok tt))
  ∨ (∃ e, length (py_set targets) = 2%nat
          ∧ roc_auc_score torch targets preds = inl e
          ∧ log_auc torch targets preds ns
            = ([RocAucCall targets preds], Err (Callee e))).
Proof.
  destruct (decide (length (py_set targets) = 2%nat)) as [Hset|Hset].
  - right. rewrite (log_auc_roc torch targets preds ns Hset).
    destruct (roc_auc_score torch targets preds) as [e|auc]; eauto.
  - left. by rewrite (log_auc_default torch targets preds ns Hset).
Qed.

Lemma log_auc_keys targets preds ns :
  metric_keys (log_auc torch targets preds ns).1 = ["AUC"]
  ∨ (metric_keys (log_auc torch targets preds ns).1 = []
     ∧ ∃ e, (log_auc torch targets preds ns).2 = Err (Callee e)).
Proof.
  destruct (log_auc_cases targets preds ns)
    as [[_ ->]|[(auc & _ & _ & ->)|(e & _ & _ & ->)]]; eauto.
Qed.

Lemma auc_statement_early logs ns (e : exn E) :
  (if has_accuracy_stats logs then
     preds ← lift (chain_key "preds" logs);
     targets ← lift (chain_key "targets" logs);
     auc ← compute_auc torch targets preds;
     log_scalar "AUC" (NFloat auc) ns 4
   else mret tt) = ([], Err e) →
  e = TypeError.
Proof.
  destruct (has_accuracy_stats logs); [|discriminate].
  lift_case preds Hpreds.
  2:{ intros [= <-]. by apply chain_key_Err in Hpreds. }
  lift_case targets Htargets.
  2:{ intros [= <-]. by apply chain_key_Err in Htargets. }
  fold (log_auc torch targets preds ns).
  destruct (log_auc_cases targets preds ns)
    as [[_ ->]|[(auc & _ & _ & ->)|(e' & _ & _ & ->)]]; discriminate.
Qed.

(** Every run, with the events of lines 107-109 spelled out. *)
Lemma reduce_metrics_cases logs :
  ∃ t0 tail,
    reduce_metrics torch logs = (t0 ++ tail.1, tail.2)
    ∧ auc_outcome torch logs tail
    ∧ Forall is_loss_event t0
    ∧ ((t0 = [] ∧ ∃ e, tail = ([], Err e))
       ∨ metric_keys t0 = ["loss"]
       ∨ metric_keys t0 = ["loss"; "nll_loss"])
    ∧ (∀ e, tail = ([], Err e) → early_exception e).
Proof.
  assert (∀ e : exn E, early_exception e → ∃ t0 tail,
    (([], Err e) : Log F E unit) = (t0 ++ tail.1, tail.2)
    ∧ auc_outcome torch logs tail
    ∧ Forall is_loss_event t0
    ∧ ((t0 = [] ∧ ∃ e, tail = ([], Err e))
       ∨ metric_keys t0 = ["loss"]
       ∨ metric_keys t0 = ["loss"; "nll_loss"])
    ∧ (∀ e, tail = ([], Err e) → early_exception e)) as Hfail.
  { intros e He. exists [], ([], Err e).
    split; [done|]. split; [constructor|]. split; [constructor|].
    split; [left; eauto|]. by intros e' [= <-]. }
  unfold reduce_metrics.
  lift_case loss_sum Hloss_sum;
    [|apply Hfail; left; by apply sum_key_Err in Hloss_sum].
  lift_case ntokens Hntokens;
    [|apply Hfail; left; by apply sum_key_Err in Hntokens].
  lift_case nsentences Hnsentences;
    [|apply Hfail; left; by apply sum_key_Err in Hnsentences].
  lift_case sample_size Hsample_size;
    [|apply Hfail; left; by apply sum_key_Err in Hsample_size].
  lift_case q Hq; [|apply Hfail; right; by apply py_truediv_Err in Hq as [-> _]].
  lift_case v Hv; [|apply Hfail; right; by apply py_truediv_Err in Hv as [-> _]].
  rewrite bind_log_scalar.
  assert (is_loss_event (LogScalar "loss" v sample_size 3)) as Hloss
    by (do 2 eexists; by left).
  pose proof (auc_statement_outcome torch logs nsentences Hnsentences) as Hauc.
  pose proof (auc_statement_early logs nsentences) as Hearly.
  destruct (py_ne sample_size ntokens).
  - rewrite Log_bind_assoc. lift_case q' Hq'.
    { rewrite Log_bind_assoc. lift_case v' Hv'.
      - rewrite bind_log_scalar. cbv beta.
        match type of Hauc with
        | auc_outcome _ _ ?t =>
            exists [LogScalar "loss" v sample_size 3;
                    LogScalar "nll_loss" v' ntokens 3], t
        end.
        split; [reflexivity|]. split; [exact Hauc|]. split.
        { repeat constructor; [done|]. do 2 eexists; by right. }
        split; [by right; right|].
        intros e He. left. by apply Hearly.
      - exists [LogScalar "loss" v sample_size 3], ([], Err v').
        split; [reflexivity|]. split; [constructor|].
        split; [by constructor|]. split; [by right; left|].
        intros e [= <-]. right. by apply py_truediv_Err in Hv' as [-> _]. }
    exists [LogScalar "loss" v sample_size 3], ([], Err q').
    split; [reflexivity|]. split; [constructor|].
    split; [by constructor|]. split; [by right; left|].
    intros e [= <-]. right. by apply py_truediv_Err in Hq' as [-> _].
  - rewrite Log_bind_ret.
    match type of Hauc with
    | auc_outcome _ _ ?t => exists [LogScalar "loss" v sample_size 3], t
    end.
    split; [reflexivity|]. split; [exact Hauc|].
    split; [by constructor|]. split; [by right; left|].
    intros e He. left. by apply Hearly.
Qed.

Lemma metric_keys_app (t1 t2 : list (event F)) :
  metric_keys (t1 ++ t2) = metric_keys t1 ++ metric_keys t2.
Proof. apply omap_app. Qed.

(** X13. Whatever the dictionaries, a run logs under ['loss'],
    ['nll_loss'] and ['AUC'] only, each at most once and in this order,
    and nothing under the last two without ['loss']; a run that returns
    has logged ['loss']. *)
Theorem reduce_metrics_logs_in_order logs :
  metric_keys (reduce_metrics torch logs).1
    ∈ [[]; ["loss"]; ["loss"; "nll_loss"]; ["loss"; "AUC"];
       ["loss"; "nll_loss"; "AUC"]]
  ∧ ((reduce_metrics torch logs).2 = Ok tt →
     "loss" ∈ metric_keys (reduce_metrics torch logs).1).
Proof.
  destruct (reduce_metrics_cases logs)
    as (t0 & tail & -> & Htail & _ & Ht0 & _).
  cbn [fst snd]. rewrite metric_keys_app.
  destruct Htail as [e|Hno|targets preds ns Hyes Htargets Hpreds Hns].
  - cbn [fst snd]. rewrite app_nil_r. split; [|discriminate].
    destruct Ht0 as [[-> _]|[->| ->]]; set_solver.
  - cbn [fst snd]. rewrite app_nil_r.
    destruct Ht0 as [[_ [e [=]]]|[->| ->]]; set_solver.
  - destruct Ht0 as [[_ [e He]]|Ht0].
    { destruct (log_auc_cases targets preds ns)
        as [[_ Heq]|[(auc & _ & _ & Heq)|(e' & _ & _ & Heq)]];
        rewrite Heq in He; discriminate. }
    destruct (log_auc_keys targets preds ns) as [->|[-> [e ->]]].
    + destruct Ht0 as [->| ->]; set_solver.
    + rewrite app_nil_r. split; [|discriminate].
      destruct Ht0 as [->| ->]; set_solver.
Qed.

Lemma metric_keys_loss_events (l : F) (s n : Z) :
  metric_keys (loss_events l s n)
  = if bool_decide (s = n) then ["loss"] else ["loss"; "nll_loss"].
Proof. unfold loss_events. by case_bool_decide. Qed.

(** X15. On the dictionaries of at least one worker that carry the six
    entries with the types [forward] gives them, and whose summed sample
    sizes and summed token counts fit a signed 64-bit integer (so that
    the divisions of the tensor loss by them do not overflow),
    ['nll_loss'] is logged exactly when the two sums differ. *)
Theorem nll_loss_logged_iff logs stats :
  Forall2 has_stats logs stats →
  stats ≠ [] →
  fits_int64 (total_sample_size stats) →
  fits_int64 (total_ntokens stats) →
  "nll_loss" ∈ metric_keys (reduce_metrics torch logs).1
  ↔ total_sample_size stats ≠ total_ntokens stats.
Proof.
  intros Hstats Hne _ _.
  rewrite (reduce_metrics_of_stats torch logs stats Hstats Hne).
  cbn [fst]. rewrite metric_keys_app, metric_keys_loss_events.
  assert (∀ tail : Log F E unit,
            tail = ([], Ok tt)
            ∨ (∃ targets preds ns, tail = log_auc torch targets preds ns) →
            "nll_loss" ∉ metric_keys tail.1) as Htail.
  { intros tail [->|(targets & preds & ns & ->)]; [apply not_elem_of_nil|].
    destruct (log_auc_keys targets preds ns) as [->|[-> _]];
      [by intros [=]%list_elem_of_singleton | apply not_elem_of_nil]. }
  match goal with
  | |- context [metric_keys (fst ?t)] => specialize (Htail t)
  end.
  assert ("nll_loss" ∉ metric_keys
            (if has_accuracy_stats logs
             then log_auc torch (pooled_targets stats) (pooled_preds stats)
                    (NInt (total_nsentences stats))
             else ([], Ok tt)).1) as Hnot.
  { apply Htail. destruct (has_accuracy_stats logs); eauto 10. }
  case_bool_decide as Heq; rewrite elem_of_app; split.
  - intros [Hin|Hin]; [|done].
    by apply list_elem_of_singleton in Hin.
  - done.
  - done.
  - intros _. left. right. by left.
Qed.

Lemma produced_has_sized_stats log :
  produced_by_forward NetInput Extra St torch margin log →
  ∃ s, has_stats log s
       ∧ ws_nsentences s = Z.of_nat (length (ws_targets s))
       ∧ ws_sample_size s = Z.of_nat (length (ws_targets s)).
Proof.
  intros (self & model & sample & reduce & st & loss & ss & st' & Hf).
  apply forward_Ok_run in Hf.
  destruct Hf as [ni0 ni1 logits0 x0 st1 logits1 x1 st2 tgt st3 loss nt0 nt1
                    preds agree hit _ _ _ _ _ _ _ _ _ _ _ _].
  exists {| ws_loss := loss; ws_ntokens := nt0 + nt1;
            ws_nsentences := numel (view_flat tgt);
            ws_sample_size := numel (view_flat tgt);
            ws_preds := preds; ws_targets := view_flat tgt |}.
  by repeat split.
Qed.

Lemma produced_all_have_sized_stats logs :
  Forall (produced_by_forward NetInput Extra St torch margin) logs →
  ∃ stats,
    Forall2 has_stats logs stats
    ∧ total_nsentences stats = Z.of_nat (length (pooled_targets stats))
    ∧ total_sample_size stats = Z.of_nat (length (pooled_targets stats)).
Proof.
  induction 1 as [|log logs Hlog _ (stats & IH & Hn & Hs)].
  { exists []. by repeat split. }
  destruct (produced_has_sized_stats log Hlog) as (s & Hstat & Hsn & Hss).
  exists (s :: stats). split; [by constructor|].
  unfold total_nsentences, total_sample_size, pooled_targets in *.
  cbn [map sum_Z foldr concat]. rewrite length_app.
  unfold sum_Z in Hn, Hs. rewrite Hn, Hs, Hsn, Hss. lia.
Qed.

(** X16. On the dictionaries of at least one worker, each returned by
    [forward], what is logged under ['loss'] and under ['AUC'] is weighted
    by the number of pooled targets. *)
Theorem reduce_metrics_weights logs :
  logs ≠ [] →
  Forall (produced_by_forward NetInput Extra St torch margin) logs →
  ∃ targets,
    chain_key (E:=E) "targets" logs = Ok targets
    ∧ ∀ key v w r,
        LogScalar key v w r ∈ (reduce_metrics torch logs).1 →
        key ≠ "nll_loss" →
        w = NInt (Z.of_nat (length targets)).
Proof.
  intros Hne Hall.
  destruct (produced_all_have_sized_stats logs Hall) as (stats & Hstats & Hn & Hs).
  assert (stats ≠ []) as Hne' by (intros ->; by inversion Hstats).
  destruct (sums_of_stats (E:=E) logs stats Hstats) as (_ & _ & _ & _ & _ & Ht).
  exists (pooled_targets stats). split; [done|].
  intros key v w r.
  rewrite (reduce_metrics_of_stats torch logs stats Hstats Hne').
  cbn [fst]. rewrite elem_of_app. intros [Hin|Hin] Hkey.
  - unfold loss_events in Hin. rewrite <- Hs.
    apply elem_of_cons in Hin as [[= -> _ -> _]|Hin]; [done|].
    case_bool_decide; [by apply elem_of_nil in Hin|].
    apply list_elem_of_singleton in Hin as [= -> _ _ _]. done.
  - rewrite <- Hn. destruct (has_accuracy_stats logs);
      [|by apply elem_of_nil in Hin].
    destruct (log_auc_cases (pooled_targets stats) (pooled_preds stats)
                (NInt (total_nsentences stats)))
      as [[_ Heq]|[(auc & _ & _ & Heq)|(e' & _ & _ & Heq)]];
      rewrite Heq in Hin; cbn [fst] in Hin.
    + by apply list_elem_of_singleton in Hin as [= _ _ -> _].
    + apply elem_of_cons in Hin as [[=]|Hin].
      by apply list_elem_of_singleton in Hin as [= _ _ -> _].
    + by apply list_elem_of_singleton in Hin.
Qed.


Lemma has_accuracy_stats_lacking log logs key :
  key ∈ stats_keys → log !! key = None →
  has_accuracy_stats (log :: logs) = false.
Proof.
  intros Hkey Hnone.
  assert (contains log key = false) as Hc.
  { unfold contains. apply bool_decide_eq_false. rewrite Hnone. by intros [??]. }
  unfold has_accuracy_stats, stats_keys in *.
  repeat (apply elem_of_cons in Hkey as [->|Hkey];
          [rewrite Hc; by rewrite ?andb_false_r|]).
  by apply elem_of_nil in Hkey.
Qed.

(** X18. Only the first dictionary is tested: when it lacks one of the
    six keys of lines 111-114, nothing is logged under ['AUC'] and
    [roc_auc_score] is not called, whatever the other dictionaries
    hold. *)
Theorem first_dictionary_decides (first : LoggingOutput F) rest key :
  key ∈ stats_keys →
  first !! key = None →
  Forall is_loss_event (reduce_metrics torch (first :: rest)).1.
Proof.
  intros Hkey Hnone.
  pose proof (has_accuracy_stats_lacking first rest key Hkey Hnone) as Hno.
  destruct (reduce_metrics_cases (first :: rest))
    as (t0 & tail & -> & Htail & Hloss & _ & _).
  cbn [fst].
  destruct Htail as [e|_|targets preds ns Hyes _ _ _]; [| |congruence];
    cbn [fst]; by rewrite app_nil_r.
Qed.


End RunExtras.

(** * Further runs and instances *)

Lemma forward_no_net_input1 :
  exact_forward example_model no_net_input1_batch true 0%nat
  = Err (KeyError "net_input1").
Proof. reflexivity. Qed.

Lemma forward_ragged :
  exact_forward example_model ragged_batch true 0%nat
  = Ok (Exact.Fin (1 # 2), 2, ragged_log, 2%nat).
Proof. reflexivity. Qed.

Lemma reduce_without_preds :
  reduce_metrics Exact.torch [two_class_log; no_preds_log]
  = ([LogScalar "loss"
        (NTensor (Exact.Fin (5000000000000000 # 6931471805599453))) (NInt 6) 3;
      LogScalar "nll_loss"
        (NTensor (Exact.Fin (1250000000000000 # 6931471805599453))) (NInt 24) 3],
     Err TypeError).
Proof. reflexivity. Qed.

Lemma one_class_has_stats : has_stats one_class_log one_class_stats.
Proof. by repeat split. Qed.

(** ** Instances of the further properties *)

Lemma forward_missing_net_input_witness :
  has_head Exact.similarity example_model = true
  ∧ net_input0 no_net_input1_batch
    = Some (map Exact.vec [[1; 0]; [0; 1]; [3; 4]])
  ∧ call example_model (map Exact.vec [[1; 0]; [0; 1]; [3; 4]])
      "similarity" 0%nat
    = inr (map Exact.vec [[1; 0]; [0; 1]; [3; 4]], tt, 1%nat)
  ∧ net_input1 no_net_input1_batch = None
  ∧ exact_forward example_model no_net_input1_batch true 0%nat
    = Err (KeyError "net_input1").
Proof.
  assert (has_head Exact.similarity example_model = true) as Hhead
    by reflexivity.
  assert (net_input0 no_net_input1_batch
          = Some (map Exact.vec [[1; 0]; [0; 1]; [3; 4]])) as Hni0
    by reflexivity.
  assert (call example_model (map Exact.vec [[1; 0]; [0; 1]; [3; 4]])
            "similarity" 0%nat
          = inr (map Exact.vec [[1; 0]; [0; 1]; [3; 4]], tt, 1%nat)) as Hcall
    by reflexivity.
  assert (net_input1 no_net_input1_batch = None) as Hnone by reflexivity.
  split; [exact Hhead|]. split; [exact Hni0|]. split; [exact Hcall|].
  split; [exact Hnone|].
  exact (proj2 (forward_missing_net_input Exact.torch Exact.margin
                  Exact.similarity example_model no_net_input1_batch true
                  0%nat Hhead)
           _ _ _ _ Hni0 Hcall Hnone).
Defined.


Lemma forward_prediction_entries_witness :
  exact_forward example_model ragged_batch true 0%nat
  = Ok (Exact.Fin (1 # 2), 2, ragged_log, 2%nat)
  ∧ ∃ ni0 ni1 logits0 x0 st1 logits1 x1 st2 tgt preds,
      net_input0 ragged_batch = Some ni0
      ∧ net_input1 ragged_batch = Some ni1
      ∧ call example_model ni0 "similarity" 0%nat = inr (logits0, x0, st1)
      ∧ call example_model ni1 "similarity" st1 = inr (logits1, x1, st2)
      ∧ get_targets example_model ragged_batch [logits0] st2 = inr (tgt, 2%nat)
      ∧ Exact.cos_sim logits0 logits1 = inr preds
      ∧ ragged_log !! "preds" = Some (VList preds)
      ∧ ragged_log !! "targets" = Some (VList (view_flat tgt))
      ∧ ragged_log !! "ncorrect_pred"
        = Some (VNum (NInt (count_gt preds Exact.margin)))
      ∧ ragged_log !! "ncorrect_actual"
        = Some (VNum (NInt (count_gt (view_flat tgt) Exact.margin))).
Proof.
  assert (exact_forward example_model ragged_batch true 0%nat
          = Ok (Exact.Fin (1 # 2), 2, ragged_log, 2%nat)) as Hrun
    by reflexivity.
  split; [exact Hrun|].
  exact (forward_prediction_entries Exact.torch Exact.margin Exact.similarity
           example_model ragged_batch true 0%nat (Exact.Fin (1 # 2)) 2
           ragged_log 2%nat Hrun).
Defined.

Lemma forward_counts_unconditional_witness :
  exact_forward example_model broadcast_batch true 0%nat
  = Ok (Exact.Fin 0, 3, broadcast_log, 2%nat)
  ∧ ∃ ncorrect ncorrect_total ncorrect_pred ncorrect_actual preds targets,
      broadcast_log !! "ncorrect" = Some (VNum (NInt ncorrect))
      ∧ broadcast_log !! "ncorrect_total" = Some (VNum (NInt ncorrect_total))
      ∧ broadcast_log !! "ncorrect_pred" = Some (VNum (NInt ncorrect_pred))
      ∧ broadcast_log !! "ncorrect_actual"
        = Some (VNum (NInt ncorrect_actual))
      ∧ broadcast_log !! "preds" = Some (VList preds)
      ∧ broadcast_log !! "targets" = Some (VList targets)
      ∧ Z.of_nat (length targets) = 3
      ∧ compatible (length preds) (length targets) = true
      ∧ 0 ≤ ncorrect ≤ ncorrect_total
      ∧ ncorrect_total ≤ Z.max (Z.of_nat (length preds)) 3
      ∧ 0 ≤ ncorrect_pred ≤ Z.of_nat (length preds)
      ∧ 0 ≤ ncorrect_actual ≤ 3.
Proof.
  assert (exact_forward example_model broadcast_batch true 0%nat
          = Ok (Exact.Fin 0, 3, broadcast_log, 2%nat)) as Hrun
    by reflexivity.
  split; [exact Hrun|].
  exact (forward_counts_unconditional Exact.torch Exact.margin
           Exact.similarity example_model broadcast_batch true 0%nat
           (Exact.Fin 0) 3 broadcast_log 2%nat Hrun).
Defined.

Lemma forward_confusion_identity_witness :
  exact_forward example_model two_class_batch true 0%nat
  = Ok (Exact.Fin (3 # 2), 3, two_class_log, 2%nat)
  ∧ ∃ ncorrect ncorrect_total ncorrect_pred ncorrect_actual preds,
      two_class_log !! "ncorrect" = Some (VNum (NInt ncorrect))
      ∧ two_class_log !! "ncorrect_total" = Some (VNum (NInt ncorrect_total))
      ∧ two_class_log !! "ncorrect_pred" = Some (VNum (NInt ncorrect_pred))
      ∧ two_class_log !! "ncorrect_actual"
        = Some (VNum (NInt ncorrect_actual))
      ∧ two_class_log !! "preds" = Some (VList preds)
      ∧ (Z.of_nat (length preds) = 3 →
         ncorrect_total = 3 - ncorrect_pred - ncorrect_actual + 2 * ncorrect).
Proof.
  assert (exact_forward example_model two_class_batch true 0%nat
          = Ok (Exact.Fin (3 # 2), 3, two_class_log, 2%nat)) as Hrun
    by reflexivity.
  split; [exact Hrun|].
  exact (forward_confusion_identity Exact.torch Exact.margin Exact.similarity
           example_model two_class_batch true 0%nat (Exact.Fin (3 # 2)) 3
           two_class_log 2%nat Hrun).
Defined.

Lemma sum_key_absent_witness :
  Forall2 (λ (log : LoggingOutput Exact.xq) z,
             log !! "ntokens" = Some (VNum (NInt z))
             ∨ (log !! "ntokens" = None ∧ z = 0))
    [two_class_log; ∅; one_class_log] [12; 0; 10]
  ∧ sum_key (E:=Exact.error) "ntokens" [two_class_log; ∅; one_class_log]
    = Ok (NInt 22).
Proof.
  assert (Forall2 (λ (log : LoggingOutput Exact.xq) z,
                     log !! "ntokens" = Some (VNum (NInt z))
                     ∨ (log !! "ntokens" = None ∧ z = 0))
            [two_class_log; ∅; one_class_log] [12; 0; 10]) as Hall.
  { constructor; [left; reflexivity|].
    constructor; [right; split; reflexivity|].
    constructor; [left; reflexivity|]. constructor. }
  split; [exact Hall|].
  exact (sum_key_absent_counts_as_zero (E:=Exact.error) "ntokens"
           [two_class_log; ∅; one_class_log] [12; 0; 10] Hall).
Defined.

Lemma sum_key_order_witness :
  [two_class_log; one_class_log] ≡ₚ [one_class_log; two_class_log]
  ∧ ∃ total,
      sum_key (E:=Exact.error) "ntokens" [two_class_log; one_class_log]
      = Ok (NInt total)
      ∧ sum_key (E:=Exact.error) "ntokens" [one_class_log; two_class_log]
        = Ok (NInt total).
Proof.
  assert ([two_class_log; one_class_log] ≡ₚ [one_class_log; two_class_log])
    as Hperm by apply perm_swap.
  assert (∀ log, log ∈ [two_class_log; one_class_log] →
                 ∃ z, get_or_0 log "ntokens" = VNum (NInt z)) as Hints.
  { intros log Hin. apply elem_of_cons in Hin as [->|Hin]; [by eexists|].
    apply list_elem_of_singleton in Hin as ->. by eexists. }
  split; [exact Hperm|].
  exact (sum_key_ints_any_order (E:=Exact.error) "ntokens" _ _ Hperm Hints).
Defined.

Lemma nll_loss_logged_witness :
  Forall2 has_stats [two_class_log] [two_class_stats]
  ∧ [two_class_stats] ≠ []
  ∧ fits_int64 (total_sample_size [two_class_stats])
  ∧ fits_int64 (total_ntokens [two_class_stats])
  ∧ ("nll_loss" ∈ metric_keys (reduce_metrics Exact.torch [two_class_log]).1
     ↔ total_sample_size [two_class_stats] ≠ total_ntokens [two_class_stats]).
Proof.
  assert (Forall2 has_stats [two_class_log] [two_class_stats]) as Hstats
    by (repeat constructor).
  assert ([two_class_stats] ≠ []) as Hne by discriminate.
  assert (fits_int64 (total_sample_size [two_class_stats])) as Hs
    by (cbv; split; [discriminate | reflexivity]).
  assert (fits_int64 (total_ntokens [two_class_stats])) as Hn
    by (cbv; split; [discriminate | reflexivity]).
  split; [exact Hstats|]. split; [exact Hne|].
  split; [exact Hs|]. split; [exact Hn|].
  exact (nll_loss_logged_iff Exact.torch [two_class_log] [two_class_stats]
           Hstats Hne Hs Hn).
Defined.

Lemma reduce_metrics_weights_witness :
  [two_class_log; one_class_log] ≠ []
  ∧ Forall exact_produced [two_class_log; one_class_log]
  ∧ ∃ targets,
      chain_key (E:=Exact.error) "targets" [two_class_log; one_class_log]
      = Ok targets
      ∧ ∀ key v w r,
          LogScalar key v w r
            ∈ (reduce_metrics Exact.torch [two_class_log; one_class_log]).1 →
          key ≠ "nll_loss" →
          w = NInt (Z.of_nat (length targets)).
Proof.
  assert (Forall exact_produced [two_class_log; one_class_log]) as Hall.
  { constructor; [apply two_class_produced|].
    constructor; [apply one_class_produced|]. constructor. }
  assert ([two_class_log; one_class_log] ≠ []) as Hne by discriminate.
  split; [exact Hne|]. split; [exact Hall|].
  exact (reduce_metrics_weights Exact.torch Exact.margin
           [two_class_log; one_class_log] Hne Hall).
Defined.


Lemma first_dictionary_decides_witness :
  "ncorrect" ∈ stats_keys
  ∧ no_ncorrect_log !! "ncorrect" = None
  ∧ Forall is_loss_event
      (reduce_metrics Exact.torch [no_ncorrect_log; two_class_log]).1.
Proof.
  assert ("ncorrect" ∈ stats_keys) as Hkey by left.
  assert (no_ncorrect_log !! "ncorrect" = None) as Hnone by reflexivity.
  split; [exact Hkey|]. split; [exact Hnone|].
  exact (first_dictionary_decides Exact.torch no_ncorrect_log [two_class_log]
           "ncorrect" Hkey Hnone).
Defined.


